(** * PokerEval: a shallow embedding of [Poker/poker.py]

    The class [PokerGame] keeps the zones of a Texas hold'em hand (deck,
    player's hole cards, opponents' hole cards, board, burned cards) and
    estimates winning chances by repeated trials.  Hand ranking is done by
    the [deuces] package, which the program only calls: it enters this
    development as the interface [Deuces].

    Python objects are mutated in place, exceptions abort a call but keep
    what was mutated before, [print] writes to the console and [random]
    consumes entropy.  All four are explicit here: a method is a function
    from a [World] to an [outcome] and the [World] it leaves behind. *)

From Stdlib Require Import String Ascii List ZArith QArith Bool Lia.
From Stdlib Require Import Permutation DecimalString Relations.
From Stdlib Require DecimalPos DecimalZ FinFun Finite.
Import ListNotations.

Local Open Scope string_scope.
Local Open Scope Z_scope.
Local Open Scope list_scope.

(* ================================================================= *)
(** ** Python values used by the program *)

(** A card is whatever Python value sits in a zone: the program's own
    decks hold strings such as ["As"], a [deuces.Deck] holds integers. *)
Inductive card : Type :=
| Tok (s : string)
| Num (z : Z).

Definition card_eq_dec (a b : card) : {a = b} + {a <> b}.
Proof. decide equality; [apply string_dec | apply Z.eq_dec]. Defined.

Definition card_eqb (a b : card) : bool :=
  if card_eq_dec a b then true else false.

(** [x in l] for a Python list. *)
Definition py_in (x : card) (l : list card) : bool := existsb (card_eqb x) l.

(** [str(z)] and [str(card)], as an f-string formats them. *)
Definition string_of_Z (z : Z) : string := NilZero.string_of_int (Z.to_int z).

Definition str (c : card) : string :=
  match c with
  | Tok s => s
  | Num z => string_of_Z z
  end.

(** The exceptions the built-in operations of the program can raise. *)
Inductive exn : Type :=
| TypeError
| AttributeError
| KeyError
| IndexError
| ValueError.

Inductive outcome (A : Type) : Type :=
| Ok (a : A)
| Raise (e : exn).
Arguments Ok {A} a.
Arguments Raise {A} e.

Definition obind {A B} (o : outcome A) (f : A -> outcome B) : outcome B :=
  match o with
  | Ok a => f a
  | Raise e => Raise e
  end.

(** A list comprehension whose element expression may raise. *)
Fixpoint mapM {A B} (f : A -> outcome B) (l : list A) : outcome (list B) :=
  match l with
  | [] => Ok []
  | x :: l' => obind (f x) (fun y => obind (mapM f l') (fun ys => Ok (y :: ys)))
  end.

(** [range(n)] has [max n 0] elements; [range(a, b)] lists [a .. b-1]. *)
Definition range_len (n : Z) : nat := Z.to_nat n.

Definition py_range (a b : Z) : list Z :=
  map (fun k => a + Z.of_nat k) (seq 0 (range_len (b - a))).

(** [list.pop()]: the last element and the list without it. *)
Definition list_pop (l : list card) : outcome (card * list card) :=
  match l with
  | [] => Raise IndexError
  | x :: l' => Ok (last l' x, removelast l)
  end.

(** [list.remove(x)]: drops the first element equal to [x]. *)
Fixpoint list_remove (x : card) (l : list card) : outcome (list card) :=
  match l with
  | [] => Raise ValueError
  | y :: l' =>
      if card_eqb x y then Ok l'
      else obind (list_remove x l') (fun r => Ok (y :: r))
  end.

Fixpoint remove_at {A} (i : nat) (l : list A) : list A :=
  match l, i with
  | [], _ => []
  | _ :: l', O => l'
  | x :: l', S i' => x :: remove_at i' l'
  end.

(** [itertools.combinations(l, 2)]: pairs of positions [i < j], in
    lexicographic order. *)
Fixpoint combinations2 {A} (l : list A) : list (A * A) :=
  match l with
  | [] => []
  | x :: l' => map (fun y => (x, y)) l' ++ combinations2 l'
  end.

(** *** Dictionaries

    [players_hands] and [opponents_hands] are dicts from player names to
    hands.  Python dicts keep insertion order and [values()] is read in
    that order, so a dict is an association list without repeated keys. *)
Inductive pykey : Type :=
| KStr (s : string)
| KInt (z : Z).

Definition pykey_eq_dec (a b : pykey) : {a = b} + {a <> b}.
Proof. decide equality; [apply string_dec | apply Z.eq_dec]. Defined.

Definition pykey_eqb (a b : pykey) : bool :=
  if pykey_eq_dec a b then true else false.

Definition dict : Type := list (pykey * list card).

Fixpoint dict_find (k : pykey) (d : dict) : option (list card) :=
  match d with
  | [] => None
  | (k', v) :: d' => if pykey_eqb k k' then Some v else dict_find k d'
  end.

(** [k in d] *)
Definition dict_contains (k : pykey) (d : dict) : bool :=
  match dict_find k d with Some _ => true | None => false end.

(** [d[k]] *)
Definition dict_getitem (k : pykey) (d : dict) : outcome (list card) :=
  match dict_find k d with
  | Some v => Ok v
  | None => Raise KeyError
  end.

(** [d[k] = v] *)
Fixpoint dict_setitem (k : pykey) (v : list card) (d : dict) : dict :=
  match d with
  | [] => [(k, v)]
  | (k', v') :: d' =>
      if pykey_eqb k k' then (k', v) :: d' else (k', v') :: dict_setitem k v d'
  end.

Definition dict_keys (d : dict) : list pykey := map fst d.
Definition dict_values (d : dict) : list (list card) := map snd d.

(* ================================================================= *)
(** ** The deuces package, as the program sees it *)

(** [Card.new], [Evaluator.evaluate], the table [Evaluator.HAND_EVAL]
    read by [calculate_hand_probability] and the 52 cards of
    [Deck.GetFullDeck()].  Scores are integers; in deuces a lower score
    is a stronger hand.  [HAND_EVAL] is [None] when the evaluator object
    has no attribute of that name, as is the case for the [Evaluator] of
    the deuces package: reading it then raises [AttributeError]. *)
Record Deuces : Type := mkDeuces {
  Card_new : card -> outcome card;
  evaluate : list card -> list card -> outcome Z;
  HAND_EVAL : option (list (string * Z));
  GetFullDeck : list card
}.

(** [self.deck] is bound to a Python list by [__init__] and to a
    [deuces.Deck] object by [new_game].  A [Deck] object has the attribute
    [cards] and the method [draw]; it is not a sequence: it has no
    [__contains__], [__iter__], [__len__], [pop] or [remove]. *)
Inductive deck_t : Type :=
| PyList (cards : list card)
| DeckObj (cards : list card).

(** [card in deck] *)
Definition deck_contains (c : card) (d : deck_t) : outcome bool :=
  match d with
  | PyList l => Ok (py_in c l)
  | DeckObj _ => Raise TypeError
  end.

(** [deck.remove(card)] *)
Definition deck_remove (c : card) (d : deck_t) : outcome deck_t :=
  match d with
  | PyList l => obind (list_remove c l) (fun l' => Ok (PyList l'))
  | DeckObj _ => Raise AttributeError
  end.

(** [deck.pop()] *)
Definition deck_pop (d : deck_t) : outcome (card * deck_t) :=
  match d with
  | PyList l => obind (list_pop l) (fun '(c, l') => Ok (c, PyList l'))
  | DeckObj _ => Raise AttributeError
  end.

(** [[card for card in deck if card not in hand]] *)
Definition deck_without (hand : list card) (d : deck_t) : outcome deck_t :=
  match d with
  | PyList l => Ok (PyList (filter (fun c => negb (py_in c hand)) l))
  | DeckObj _ => Raise TypeError
  end.

(** [deck.cards] *)
Definition deck_cards (d : deck_t) : outcome (list card) :=
  match d with
  | PyList _ => Raise AttributeError
  | DeckObj cs => Ok cs
  end.

(* ================================================================= *)
(** ** The game object and the world around it *)

Record PokerGame : Type := mkPokerGame {
  deck : deck_t;
  num_players : Z;
  players_hands : dict;
  opponents_hands : dict;
  board : list card;
  burned_cards : list card
}.

Definition set_deck (d : deck_t) (g : PokerGame) : PokerGame :=
  mkPokerGame d (num_players g) (players_hands g) (opponents_hands g)
              (board g) (burned_cards g).

Definition set_players_hands (h : dict) (g : PokerGame) : PokerGame :=
  mkPokerGame (deck g) (num_players g) h (opponents_hands g)
              (board g) (burned_cards g).

Definition set_opponents_hands (h : dict) (g : PokerGame) : PokerGame :=
  mkPokerGame (deck g) (num_players g) (players_hands g) h
              (board g) (burned_cards g).

Definition set_board (b : list card) (g : PokerGame) : PokerGame :=
  mkPokerGame (deck g) (num_players g) (players_hands g) (opponents_hands g)
              b (burned_cards g).

Definition set_burned_cards (b : list card) (g : PokerGame) : PokerGame :=
  mkPokerGame (deck g) (num_players g) (players_hands g) (opponents_hands g)
              (board g) b.

(** [self] is the game object, [entropy] the numbers the [random] module
    will hand out next, [stdout] the lines printed so far. *)
Record World : Type := mkWorld {
  self : PokerGame;
  entropy : list nat;
  stdout : list string
}.

Definition M (A : Type) : Type := World -> outcome A * World.

Definition ret {A} (a : A) : M A := fun w => (Ok a, w).

Definition bind {A B} (m : M A) (f : A -> M B) : M B :=
  fun w =>
    match m w with
    | (Ok a, w') => f a w'
    | (Raise e, w') => (Raise e, w')
    end.

Definition raise {A} (e : exn) : M A := fun w => (Raise e, w).

Definition lift {A} (o : outcome A) : M A := fun w => (o, w).

Declare Scope py_scope.
Delimit Scope py_scope with py.
Notation "x <- m ;; k" := (bind m (fun x => k))
  (at level 61, m at next level, right associativity) : py_scope.
Notation "' pat <- m ;; k" := (bind m (fun x => let 'pat := x in k))
  (at level 61, pat pattern, m at next level, right associativity) : py_scope.
Notation "m ;; k" := (bind m (fun _ => k))
  (at level 61, right associativity) : py_scope.
Local Open Scope py_scope.

Definition get_self : M PokerGame := fun w => (Ok (self w), w).

Definition modify_self (f : PokerGame -> PokerGame) : M unit :=
  fun w => (Ok tt, mkWorld (f (self w)) (entropy w) (stdout w)).

Definition print (line : string) : M unit :=
  fun w => (Ok tt, mkWorld (self w) (entropy w) (stdout w ++ [line])).

(** The next random index below [n]. *)
Definition rand_below (n : nat) : M nat :=
  fun w =>
    match entropy w with
    | [] => (Ok O, w)
    | r :: rs => (Ok (Nat.modulo r n), mkWorld (self w) rs (stdout w))
    end.

(** [for x in l: body] *)
Fixpoint for_each {A} (l : list A) (body : A -> M unit) : M unit :=
  match l with
  | [] => ret tt
  | x :: l' => body x ;; for_each l' body
  end.

(** [for _ in range(n): body], the local variables the body updates
    being threaded through as [s]. *)
Fixpoint repeat_loop {S} (n : nat) (body : S -> M S) (s : S) : M S :=
  match n with
  | O => ret s
  | Datatypes.S n' => s' <- body s ;; repeat_loop n' body s'
  end.

Definition for_range {S} (n : Z) (body : S -> M S) (s : S) : M S :=
  repeat_loop (range_len n) body s.

(** [random.sample(population, k)]: [k] elements at distinct positions.
    A population that is not a sequence is a [TypeError], one that is too
    small a [ValueError]. *)
Fixpoint pick (pop : list card) (k : nat) : M (list card) :=
  match k with
  | O => ret []
  | Datatypes.S k' =>
      i <- rand_below (length pop) ;;
      match nth_error pop i with
      | Some c => rest <- pick (remove_at i pop) k' ;; ret (c :: rest)
      | None => raise IndexError
      end
  end.

Definition random_sample (population : deck_t) (k : nat) : M (list card) :=
  match population with
  | DeckObj _ => raise TypeError
  | PyList pop =>
      if (length pop <? k)%nat then raise ValueError else pick pop k
  end.

(** [Deck()]: the full deuces deck, shuffled. *)
Definition Deck (lib : Deuces) : M deck_t :=
  cs <- pick (GetFullDeck lib) (length (GetFullDeck lib)) ;;
  ret (DeckObj cs).

(* ================================================================= *)
(** ** class PokerGame *)

Definition ranks : list string :=
  ["2"; "3"; "4"; "5"; "6"; "7"; "8"; "9"; "10"; "J"; "Q"; "K"; "A"].

Definition suits : list string := ["h"; "d"; "c"; "s"].

(** [[rank + suit for rank in ranks for suit in suits]] *)
Definition full_deck : list card :=
  flat_map (fun rank => map (fun suit => Tok (rank ++ suit)) suits) ranks.

(** [{f"player{i}": [] for i in range(2, num_players + 1)}] *)
Definition no_opponents_hands (n : Z) : dict :=
  map (fun i => (KStr ("player" ++ string_of_Z i), [])) (py_range 2 (n + 1)).

Definition __init__ (n : Z) (hole_cards : list card) : PokerGame :=
  {| deck := PyList full_deck;
     num_players := n;
     players_hands := [(KStr "player1", hole_cards)];
     opponents_hands := no_opponents_hands n;
     board := [];
     burned_cards := [] |}.

Section Methods.

Variable lib : Deuces.

Definition deal_hole_cards : M unit :=
  g <- get_self ;;
  hand <- random_sample (deck g) 2 ;;
  modify_self (fun g => set_players_hands
                 (dict_setitem (KStr "player1") hand (players_hands g)) g) ;;
  g <- get_self ;;
  mine <- lift (dict_getitem (KStr "player1") (players_hands g)) ;;
  d <- lift (deck_without mine (deck g)) ;;
  modify_self (set_deck d).

(** One round of the loop of [deal_opponent_hands]. *)
Definition deal_opponent_hand (player_name : pykey) : M unit :=
  g <- get_self ;;
  hand <- random_sample (deck g) 2 ;;
  modify_self (fun g => set_opponents_hands
                 (dict_setitem player_name hand (opponents_hands g)) g) ;;
  g <- get_self ;;
  theirs <- lift (dict_getitem player_name (opponents_hands g)) ;;
  d <- lift (deck_without theirs (deck g)) ;;
  modify_self (set_deck d).

Definition deal_opponent_hands : M (list (list card)) :=
  g <- get_self ;;
  for_each (dict_keys (opponents_hands g)) deal_opponent_hand ;;
  g <- get_self ;;
  ret (dict_values (opponents_hands g)).

Definition not_in_deck_message (c : card) : string :=
  "Error: Card " ++ str c ++ " is not in the deck.".

(** One round of the loop of [update_board]. *)
Definition update_board_card (c : card) : M unit :=
  g <- get_self ;;
  present <- lift (deck_contains c (deck g)) ;;
  if (present : bool) then
    modify_self (fun g => set_board (board g ++ [c]) g) ;;
    g <- get_self ;;
    d <- lift (deck_remove c (deck g)) ;;
    modify_self (set_deck d)
  else
    print (not_in_deck_message c).

Definition update_board (args : list card) : M unit :=
  for_each args update_board_card.

Definition new_game (n : Z) (hole_cards : list card) : M unit :=
  modify_self (fun g => mkPokerGame (deck g) n (players_hands g)
                          (opponents_hands g) (board g) (burned_cards g)) ;;
  modify_self (set_players_hands [(KStr "player1", hole_cards)]) ;;
  modify_self (set_opponents_hands (no_opponents_hands n)) ;;
  d <- Deck lib ;;
  modify_self (set_deck d) ;;
  modify_self (set_board []) ;;
  modify_self (set_burned_cards []).

(** Lines 81-87, and again 146-152: copy deck and board, then pop
    [5 - len(self.board) - len(self.burned_cards)] cards off the copied
    deck onto the copied board. *)
Definition draw_one (st : deck_t * list card) : M (deck_t * list card) :=
  let '(remaining_deck, remaining_board) := st in
  '(c, remaining_deck) <- lift (deck_pop remaining_deck) ;;
  ret (remaining_deck, remaining_board ++ [c]).

Definition missing_cards (g : PokerGame) : Z :=
  5 - Z.of_nat (length (board g)) - Z.of_nat (length (burned_cards g)).

Definition draw_community : M (deck_t * list card) :=
  g <- get_self ;;
  for_range (missing_cards g) draw_one (deck g, board g).

(** [all(player_score > score for score in opponent_scores)] *)
Definition all_beaten (player_score : Z) (opponent_scores : list Z) : bool :=
  forallb (fun score => player_score >? score) opponent_scores.

(** Lines 81-96, the body of a round of [simulate_remaining_game] up to
    the test: it leaves [player_score], the rebound [opponent_hands] and
    [opponent_scores]. *)
Definition trial_locals (opponent_hands : list (list card))
  : M (Z * list (list card) * list Z) :=
  '(remaining_deck, remaining_board) <- draw_community ;;
  g <- get_self ;;
  let remaining_burned := burned_cards g in
  all_community_cards <-
    lift (mapM (Card_new lib) (remaining_board ++ remaining_burned)) ;;
  hole <- lift (dict_getitem (KStr "player1") (players_hands g)) ;;
  player_hand <- lift (mapM (Card_new lib) hole) ;;
  player_score <- lift (evaluate lib player_hand all_community_cards) ;;
  let opponent_hands := map (fun hand => hand) opponent_hands in
  opponent_scores <-
    lift (mapM (fun hand => obind (mapM (Card_new lib) hand) (fun h =>
                  evaluate lib h all_community_cards)) opponent_hands) ;;
  ret (player_score, opponent_hands, opponent_scores).

(** One round of the loop of [simulate_remaining_game]; the locals that
    live across rounds are [win_count] and [opponent_hands]. *)
Definition simulate_trial (st : Z * list (list card))
  : M (Z * list (list card)) :=
  let '(win_count, opponent_hands) := st in
  '(player_score, opponent_hands, opponent_scores) <-
    trial_locals opponent_hands ;;
  if all_beaten player_score opponent_scores
  then ret (win_count + 1, opponent_hands)
  else ret (win_count, opponent_hands).

(** [count / 10000] *)
Definition probability (count : Z) : Q := Qred (count # 10000).

Definition simulate_remaining_game (opponent_hands : list (list card))
  : M Q :=
  '(win_count, _) <- for_range 10000 simulate_trial (0, opponent_hands) ;;
  ret (probability win_count).

(** [x.values()] where [x] is a Python list: lists have no such
    attribute. *)
Definition list_values {A} (x : list A) : outcome (list A) :=
  Raise AttributeError.

Definition calculate_win_probabilities : M Q :=
  g <- get_self ;;
  if (length (board g) =? 0)%nat && (length (burned_cards g) =? 0)%nat then
    hands <- deal_opponent_hands ;;
    simulate_remaining_game hands
  else if (length (board g) <? 5)%nat then
    hands <- deal_opponent_hands ;;
    vs <- lift (list_values hands) ;;
    simulate_remaining_game vs
  else
    hands <- deal_opponent_hands ;;
    vs <- lift (list_values hands) ;;
    simulate_remaining_game vs.

Fixpoint table_find (k : string) (t : list (string * Z)) : option Z :=
  match t with
  | [] => None
  | (k', v) :: t' => if String.eqb k k' then Some v else table_find k t'
  end.

(** [any(score >= hand_type_score for score in opponent_scores)] *)
Definition any_reaches (hand_type_score : Z) (opponent_scores : list Z)
  : bool :=
  existsb (fun score => score >=? hand_type_score) opponent_scores.

(** One round of the loop of [calculate_hand_probability]. *)
Definition hand_trial (hand_type_score : Z) (win_count : Z) : M Z :=
  '(remaining_deck, remaining_board) <- draw_community ;;
  g <- get_self ;;
  let remaining_burned := burned_cards g in
  let all_community_cards := remaining_board ++ remaining_burned in
  hole <- lift (dict_getitem (KStr "player1") (players_hands g)) ;;
  player_score <- lift (evaluate lib hole all_community_cards) ;;
  opponent_hands <- deal_opponent_hands ;;
  opponent_scores <-
    lift (mapM (fun hand => evaluate lib hand all_community_cards)
               opponent_hands) ;;
  if any_reaches hand_type_score opponent_scores
  then ret (win_count + 1)
  else ret win_count.

Definition invalid_hand_type_message (hand_type : string) : string :=
  "Error: Invalid hand type '" ++ hand_type
    ++ "'. Please enter a valid hand type.".

(** [evaluator.HAND_EVAL] *)
Definition getattr_HAND_EVAL : outcome (list (string * Z)) :=
  match HAND_EVAL lib with
  | Some table => Ok table
  | None => Raise AttributeError
  end.

(** Returns [None] after printing when the hand type is unknown. *)
Definition calculate_hand_probability (hand_type : string) : M (option Q) :=
  table <- lift getattr_HAND_EVAL ;;
  match table_find hand_type table with
  | None =>
      print (invalid_hand_type_message hand_type) ;;
      ret None
  | Some hand_type_score =>
      win_count <- for_range 10000 (hand_trial hand_type_score) 0 ;;
      ret (Some (probability win_count))
  end.

Definition reveal_card (c : card) : M unit :=
  g <- get_self ;;
  present <- lift (deck_contains c (deck g)) ;;
  if (present : bool) then
    modify_self (fun g => set_burned_cards (burned_cards g ++ [c]) g) ;;
    g <- get_self ;;
    d <- lift (deck_remove c (deck g)) ;;
    modify_self (set_deck d)
  else
    print (not_in_deck_message c).

Definition add_to_opponent_hand (player_name : pykey) (c : card) : M unit :=
  g <- get_self ;;
  if dict_contains player_name (opponents_hands g) then
    present <- lift (deck_contains c (deck g)) ;;
    if (present : bool) then
      hand <- lift (dict_getitem player_name (opponents_hands g)) ;;
      modify_self (fun g => set_opponents_hands
                     (dict_setitem player_name (hand ++ [c])
                                   (opponents_hands g)) g) ;;
      g <- get_self ;;
      d <- lift (deck_remove c (deck g)) ;;
      modify_self (set_deck d)
    else
      print (not_in_deck_message c)
  else
    print ("Error: Opponent " ++ match player_name with
                                 | KStr s => s
                                 | KInt z => string_of_Z z
                                 end ++ " does not exist.").

(** One round of the loop of [get_beating_hands]. *)
Definition beating_round (combo : card * card)
                         (beating_hands : list (list card))
  : M (list (list card)) :=
  g <- get_self ;;
  let opponent_hand := [fst combo; snd combo] ++ board g in
  opponent_score <- lift (evaluate lib opponent_hand (board g)) ;;
  mine <- lift (dict_getitem (KInt 0) (players_hands g)) ;;
  let player_hand := mine ++ board g in
  player_score <- lift (evaluate lib player_hand (board g)) ;;
  if opponent_score >? player_score
  then ret (beating_hands ++ [[fst combo; snd combo]])
  else ret beating_hands.

Fixpoint for_each_acc {A S} (l : list A) (body : A -> S -> M S) (s : S)
  : M S :=
  match l with
  | [] => ret s
  | x :: l' => s' <- body x s ;; for_each_acc l' body s'
  end.

Definition get_beating_hands : M (list (list card)) :=
  g <- get_self ;;
  cards <- lift (deck_cards (deck g)) ;;
  for_each_acc (combinations2 cards) beating_round [].

End Methods.

(* ================================================================= *)
(** ** A stand-in for deuces, for running the methods

    [Card.new] follows the deuces card encoding (rank from
    ["23456789TJQKA"], suit from ["shdc"], a [KeyError] for any other
    character).  [evaluate] accepts five to seven integer cards like the
    deuces evaluator and ranks them coarsely, by the largest group of equal
    ranks and then by the rank of that group; lower is stronger. *)
Module Fixture.

Definition STR_RANKS : list ascii := list_ascii_of_string "23456789TJQKA".

Definition PRIMES : list Z := [2; 3; 5; 7; 11; 13; 17; 19; 23; 29; 31; 37; 41].

Fixpoint index_of (a : ascii) (l : list ascii) (i : Z) : option Z :=
  match l with
  | [] => None
  | b :: l' => if Ascii.eqb a b then Some i else index_of a l' (i + 1)
  end.

Definition suit_int (a : ascii) : option Z :=
  if Ascii.eqb a "s" then Some 1
  else if Ascii.eqb a "h" then Some 2
  else if Ascii.eqb a "d" then Some 4
  else if Ascii.eqb a "c" then Some 8
  else None.

Definition new (c : card) : outcome card :=
  match c with
  | Num _ => Raise TypeError
  | Tok s =>
      match String.get 0 s, String.get 1 s with
      | Some rank_char, Some suit_char =>
          match index_of rank_char STR_RANKS 0, suit_int suit_char with
          | Some rank_int, Some suit =>
              let rank_prime := nth (Z.to_nat rank_int) PRIMES 0 in
              Ok (Num (Z.lor (Z.lor (Z.lor (Z.shiftl (Z.shiftl 1 rank_int) 16)
                                           (Z.shiftl suit 12))
                                    (Z.shiftl rank_int 8))
                             rank_prime))
          | _, _ => Raise KeyError
          end
      | _, _ => Raise IndexError
      end
  end.

Definition rank_of (c : card) : outcome Z :=
  match c with
  | Tok _ => Raise TypeError
  | Num z => Ok (Z.land (Z.shiftr z 8) 15)
  end.

Definition group_strength (rs : list Z) (r : Z) : Z :=
  16 * Z.of_nat (count_occ Z.eq_dec rs r) + r.

Definition score (hand board : list card) : outcome Z :=
  let all_cards := hand ++ board in
  if (length all_cards <? 5)%nat || (7 <? length all_cards)%nat
  then Raise KeyError
  else obind (mapM rank_of all_cards) (fun rs =>
         Ok (7462 - fold_right Z.max 0 (map (group_strength rs) rs))).

Definition full_deck_ints : list card :=
  flat_map (fun r =>
    flat_map (fun s =>
      match new (Tok (String r (String s EmptyString))) with
      | Ok c => [c]
      | Raise _ => []
      end) (list_ascii_of_string "shdc")) STR_RANKS.

Definition deuces : Deuces :=
  {| Card_new := new;
     evaluate := score;
     HAND_EVAL := Some [("pair", 6185); ("flush", 1599)];
     GetFullDeck := full_deck_ints |}.

(** [PokerGame(n, hole_cards)] in a fresh process. *)
Definition start (n : Z) (hole_cards : list card) (rnd : list nat) : World :=
  {| self := __init__ n hole_cards; entropy := rnd; stdout := [] |}.

(** The world after running [m] from [w], whatever the outcome. *)
Definition after {A} (m : M A) (w : World) : World := snd (m w).

(** A pair of aces on a board that pairs nobody. *)
Definition river : list card :=
  [Tok "2h"; Tok "7c"; Tok "9d"; Tok "Jh"; Tok "3s"].

Definition aces_on_river : World :=
  after (update_board river) (start 2 [Tok "As"; Tok "Ad"] []).

(** A game with one opponent, before and after the flop. *)
Definition preflop : World := start 2 [Tok "2h"; Tok "3d"] [1; 2]%nat.

Definition after_flop : World :=
  after (update_board [Tok "2h"; Tok "3h"; Tok "4h"])
        (start 2 [Tok "As"; Tok "7d"] [1; 2]%nat).

End Fixture.


(* ================================================================= *)
(** ** Reachable worlds and the properties stated about them *)

(** The public methods of the class, as a client (the command loop at the
    bottom of the file, or any other caller) can invoke them.  The two
    methods that only print, [print_beating_hands] and [show_hands], are
    left out. *)
Inductive method_call : Type :=
| call_deal_hole_cards
| call_deal_opponent_hands
| call_update_board (args : list card)
| call_new_game (n : Z) (hole_cards : list card)
| call_simulate_remaining_game (opponent_hands : list (list card))
| call_calculate_win_probabilities
| call_calculate_hand_probability (hand_type : string)
| call_reveal_card (c : card)
| call_add_to_opponent_hand (player_name : pykey) (c : card)
| call_get_beating_hands.

Definition run (lib : Deuces) (c : method_call) : M unit :=
  match c with
  | call_deal_hole_cards => deal_hole_cards
  | call_deal_opponent_hands => _ <- deal_opponent_hands ;; ret tt
  | call_update_board args => update_board args
  | call_new_game n hole_cards => new_game lib n hole_cards
  | call_simulate_remaining_game hands =>
      _ <- simulate_remaining_game lib hands ;; ret tt
  | call_calculate_win_probabilities =>
      _ <- calculate_win_probabilities lib ;; ret tt
  | call_calculate_hand_probability hand_type =>
      _ <- calculate_hand_probability lib hand_type ;; ret tt
  | call_reveal_card c => reveal_card c
  | call_add_to_opponent_hand player_name c =>
      add_to_opponent_hand player_name c
  | call_get_beating_hands => _ <- get_beating_hands lib ;; ret tt
  end.

(** A world is reachable when it is the one a constructor call leaves, or
    the one a method call leaves when started in a reachable world,
    whether the call returned or raised (the command loop catches the
    exception and goes on). *)
Inductive reachable (lib : Deuces) : World -> Prop :=
| reachable_start (n : Z) (hole_cards : list card) (rnd : list nat) :
    reachable lib {| self := __init__ n hole_cards;
                     entropy := rnd; stdout := [] |}
| reachable_call (w : World) (c : method_call) :
    reachable lib w -> reachable lib (snd (run lib c w)).

(** What holds of the deck and the board in every reachable world. *)
Definition sound (g : PokerGame) : Prop :=
  match deck g with
  | PyList d =>
      NoDup d /\ incl d full_deck /\
      (forall c, In c (board g) -> ~ In c d)
  | DeckObj _ => board g = []
  end.

(** The number of cards still in a list deck; a [Deck] object supports
    none of the draws. *)
Definition deck_size (d : deck_t) : nat :=
  match d with
  | PyList l => length l
  | DeckObj _ => O
  end.

(** The cards of each zone, and the partition of the 52 cards the zones
    are meant to form. *)
Definition deck_zone (g : PokerGame) : list card :=
  match deck g with
  | PyList l => l
  | DeckObj l => l
  end.

Definition zones (g : PokerGame) : list (list card) :=
  [deck_zone g] ++ dict_values (players_hands g)
    ++ dict_values (opponents_hands g) ++ [board g; burned_cards g].

Definition pairwise_disjoint (zs : list (list card)) : Prop :=
  forall i j a b c,
    (i < j)%nat -> nth_error zs i = Some a -> nth_error zs j = Some b ->
    In c a -> ~ In c b.

Definition covers (zs : list (list card)) (universe : list card) : Prop :=
  forall c, In c universe <-> exists z, In z zs /\ In c z.

Definition zones_partition (g : PokerGame) : Prop :=
  pairwise_disjoint (zones g) /\ covers (zones g) full_deck.

(** A computation that leaves the world as it found it. *)
Definition pure {A} (m : M A) : Prop := forall w, snd (m w) = w.

(** A computation that leaves the game object as it found it. *)
Definition keeps_self {A} (m : M A) : Prop :=
  forall w, self (snd (m w)) = self w.

(** A computation that preserves a property of the game object. *)
Definition preserves (P : PokerGame -> Prop) {A} (m : M A) : Prop :=
  forall w, P (self w) -> P (self (snd (m w))).

(** The verdict of a round: whether it is counted, or the exception that
    ends it. *)
Definition round_verdict lib hands w : outcome bool :=
  obind (fst (trial_locals lib hands w))
        (fun '(p, _, ss) => Ok (all_beaten p ss)).

(** Properties that survive the removal of cards from a list deck. *)
Definition filter_closed (P : PokerGame -> Prop) : Prop :=
  forall g l f, deck g = PyList l -> P g ->
                P (set_deck (PyList (filter f l)) g).

(* ================================================================= *)
(** ** The methods that only print *)

(** What the program uses of deuces to print: [Card.print_pretty_cards]
    (the line it prints), [Evaluator.get_rank_class] and
    [Evaluator.class_to_string]. *)
Record DeucesPrinting : Type := mkDeucesPrinting {
  pretty_cards : list card -> outcome string;
  get_rank_class : Z -> outcome Z;
  class_to_string : Z -> outcome string
}.

Section PrintingMethods.

Variable lib : Deuces.
Variable printing : DeucesPrinting.

Definition print_beating_hands : M unit :=
  beating_hands <- get_beating_hands lib ;;
  match beating_hands with
  | _ :: _ =>
      print "Two-card hands that would beat your current hand:" ;;
      for_each beating_hands (fun hand =>
        line <- lift (pretty_cards printing hand) ;;
        print line)
  | [] =>
      print "There are no two-card hands that would beat your current hand."
  end.

Definition show_hands : M unit :=
  g <- get_self ;;
  hole <- lift (dict_getitem (KStr "player1") (players_hands g)) ;;
  let player_hand := hole ++ board g in
  player_score <- lift (evaluate lib player_hand (board g)) ;;
  player_class <- lift (get_rank_class printing player_score) ;;
  class_name <- lift (class_to_string printing player_class) ;;
  print ("Player hand rank = " ++ string_of_Z player_score
           ++ " (" ++ class_name ++ ")").

End PrintingMethods.

(** Worlds and a printing stand-in for running the other methods. *)
Module Samples.

Definition printing : DeucesPrinting :=
  {| pretty_cards := fun hand => Ok (String.concat " " (map str hand));
     get_rank_class := fun score => Ok (if score <=? 7450 then 8 else 9);
     class_to_string :=
       fun c => Ok (if (c =? 8)%Z then "Pair" else "High Card") |}.

(** After [newgame]: the deck is a [Deck] object. *)
Definition restarted : World :=
  Fixture.after (new_game Fixture.deuces 2 [Tok "Kh"; Tok "Kd"])
                Fixture.preflop.

(** A game without opponents. *)
Definition alone : World := Fixture.start 1 [Tok "2h"; Tok "3d"] [].

(** The stand-in with [HAND_EVAL] missing, as in the deuces package. *)
Definition as_shipped : Deuces :=
  {| Card_new := Card_new Fixture.deuces;
     evaluate := evaluate Fixture.deuces;
     HAND_EVAL := None;
     GetFullDeck := GetFullDeck Fixture.deuces |}.



(** A list deck of a single card. *)
Definition last_card : World :=
  {| self := set_deck (PyList [Tok "As"]) (__init__ 2 [Tok "Kh"; Tok "Kd"]);
     entropy := []; stdout := [] |}.

End Samples.

(* ================================================================= *)
(** ** The atomic changes of the game object *)

(** Every way in which a method changes the game object: a card leaves a
    list deck for the board, the burned cards or the hand of an opponent;
    two cards at different places of a list deck become the hand of an
    opponent or of the player, and every card equal to one of them leaves
    the deck; a new game starts on a shuffled [Deck] object. *)
Inductive move (lib : Deuces) : PokerGame -> PokerGame -> Prop :=
| move_to_board (g : PokerGame) (l1 l2 : list card) (c : card) :
    deck g = PyList (l1 ++ c :: l2) -> ~ In c l1 ->
    move lib g (set_deck (PyList (l1 ++ l2))
                  (set_board (board g ++ [c]) g))
| move_to_burned (g : PokerGame) (l1 l2 : list card) (c : card) :
    deck g = PyList (l1 ++ c :: l2) -> ~ In c l1 ->
    move lib g (set_deck (PyList (l1 ++ l2))
                  (set_burned_cards (burned_cards g ++ [c]) g))
| move_to_opponent (g : PokerGame) (l1 l2 : list card) (c : card)
                   (k : pykey) (hand : list card) :
    deck g = PyList (l1 ++ c :: l2) -> ~ In c l1 ->
    dict_find k (opponents_hands g) = Some hand ->
    move lib g (set_deck (PyList (l1 ++ l2))
                  (set_opponents_hands
                     (dict_setitem k (hand ++ [c]) (opponents_hands g)) g))
| move_deal_opponent (g : PokerGame) (d rest : list card) (c1 c2 : card)
                     (k : pykey) :
    deck g = PyList d -> Permutation (c1 :: c2 :: rest) d ->
    dict_contains k (opponents_hands g) = true ->
    move lib g (set_deck (PyList (filter (fun c => negb (py_in c [c1; c2])) d))
                  (set_opponents_hands
                     (dict_setitem k [c1; c2] (opponents_hands g)) g))
| move_deal_hole (g : PokerGame) (d rest : list card) (c1 c2 : card) :
    deck g = PyList d -> Permutation (c1 :: c2 :: rest) d ->
    move lib g (set_deck (PyList (filter (fun c => negb (py_in c [c1; c2])) d))
                  (set_players_hands
                     (dict_setitem (KStr "player1") [c1; c2]
                                   (players_hands g)) g))
| move_new_game (g : PokerGame) (n : Z) (hole_cards cs : list card) :
    Permutation cs (GetFullDeck lib) ->
    move lib g {| deck := DeckObj cs;
                  num_players := n;
                  players_hands := [(KStr "player1", hole_cards)];
                  opponents_hands := no_opponents_hands n;
                  board := [];
                  burned_cards := [] |}.

Definition moves (lib : Deuces) : PokerGame -> PokerGame -> Prop :=
  clos_refl_trans PokerGame (move lib).

(** A computation that changes the game object by such moves only. *)
Definition by_moves (lib : Deuces) {A} (m : M A) : Prop :=
  forall w, moves lib (self w) (self (snd (m w))).

(** The line [add_to_opponent_hand] prints for a name that is no key of
    [opponents_hands]. *)
Definition no_opponent_message (k : pykey) : string :=
  "Error: Opponent " ++ match k with
                        | KStr s => s
                        | KInt z => string_of_Z z
                        end ++ " does not exist.".

(** The cards outside the deck and the player's hand. *)
Definition dealt_out (g : PokerGame) : list card :=
  board g ++ burned_cards g ++ concat (dict_values (opponents_hands g)).

(** No card twice among a list deck, the board, the burned cards and the
    opponents' hands. *)
Definition tidy (g : PokerGame) : Prop :=
  forall d, deck g = PyList d -> NoDup (d ++ dealt_out g).

(* ================================================================= *)
(** ** Basic facts *)

Lemma card_eqb_eq (a b : card) : card_eqb a b = true <-> a = b.
Proof. unfold card_eqb; destruct (card_eq_dec a b); split; congruence. Qed.

Lemma py_in_In (x : card) (l : list card) : py_in x l = true <-> In x l.
Proof.
  unfold py_in; rewrite existsb_exists; split.
  - intros [y [Hy E]]. apply card_eqb_eq in E. now subst.
  - intros H; exists x; split; [assumption | now apply card_eqb_eq].
Qed.

Lemma py_in_not_In (x : card) (l : list card) :
  py_in x l = false <-> ~ In x l.
Proof.
  rewrite <- py_in_In. destruct (py_in x l); split; congruence.
Qed.

Lemma list_remove_In (x : card) (l : list card) :
  In x l ->
  exists l1 l2, l = l1 ++ x :: l2 /\ ~ In x l1 /\ list_remove x l = Ok (l1 ++ l2).
Proof.
  induction l as [|y l IH]; simpl; [tauto|].
  intros H. destruct (card_eqb x y) eqn:E.
  - apply card_eqb_eq in E; subst y.
    exists [], l; simpl; auto.
  - assert (Hne : x <> y) by (intros ->; rewrite (proj2 (card_eqb_eq y y) eq_refl) in E; discriminate).
    destruct H as [H|H]; [congruence|].
    destruct (IH H) as (l1 & l2 & -> & Hn & ->).
    exists (y :: l1), l2; simpl; repeat split; auto.
    intros [A|A]; [congruence | tauto].
Qed.

Section MonadFacts.

Context {A B : Type}.

Lemma bind_Ok (m : M A) (f : A -> M B) w a w' :
  m w = (Ok a, w') -> bind m f w = f a w'.
Proof. unfold bind; now intros ->. Qed.

Lemma bind_Raise (m : M A) (f : A -> M B) w e w' :
  m w = (Raise e, w') -> bind m f w = (Raise e, w').
Proof. unfold bind; now intros ->. Qed.

Lemma pure_ret (a : A) : pure (ret a).
Proof. now intros w. Qed.

Lemma pure_raise (e : exn) : pure (@raise A e).
Proof. now intros w. Qed.

Lemma pure_lift (o : outcome A) : pure (lift o).
Proof. now intros w. Qed.

Lemma pure_bind (m : M A) (f : A -> M B) :
  pure m -> (forall a, pure (f a)) -> pure (bind m f).
Proof.
  intros Hm Hf w. unfold bind. specialize (Hm w).
  destruct (m w) as [[a|e] w']; simpl in *; subst; [apply Hf | reflexivity].
Qed.

Lemma keeps_self_bind (m : M A) (f : A -> M B) :
  keeps_self m -> (forall a, keeps_self (f a)) -> keeps_self (bind m f).
Proof.
  intros Hm Hf w. unfold bind. specialize (Hm w).
  destruct (m w) as [[a|e] w']; simpl in *; [rewrite Hf|]; assumption.
Qed.

Lemma preserves_bind (P : PokerGame -> Prop) (m : M A) (f : A -> M B) :
  preserves P m -> (forall a, preserves P (f a)) -> preserves P (bind m f).
Proof.
  intros Hm Hf w HP. unfold bind. specialize (Hm w HP).
  destruct (m w) as [[a|e] w']; simpl in *; [now apply Hf | assumption].
Qed.

Lemma pure_keeps_self (m : M A) : pure m -> keeps_self m.
Proof. intros H w. now rewrite H. Qed.

Lemma keeps_self_preserves (P : PokerGame -> Prop) (m : M A) :
  keeps_self m -> preserves P m.
Proof. intros H w HP. now rewrite H. Qed.

End MonadFacts.

Lemma pure_get_self : pure get_self.
Proof. now intros w. Qed.

Lemma repeat_loop_S {S} (n : nat) (body : S -> M S) (s : S) :
  repeat_loop (Datatypes.S n) body s = bind (body s) (repeat_loop n body).
Proof. reflexivity. Qed.

Lemma pure_repeat_loop {S} (body : S -> M S) :
  (forall s, pure (body s)) -> forall n s, pure (repeat_loop n body s).
Proof.
  intros Hb n; induction n as [|n IH]; intros s; simpl.
  - apply pure_ret.
  - apply pure_bind; [apply Hb | apply IH].
Qed.

Lemma preserves_repeat_loop (P : PokerGame -> Prop) {S} (body : S -> M S) :
  (forall s, preserves P (body s)) ->
  forall n s, preserves P (repeat_loop n body s).
Proof.
  intros Hb n; induction n as [|n IH]; intros s; simpl.
  - apply keeps_self_preserves, pure_keeps_self, pure_ret.
  - apply preserves_bind; [apply Hb | apply IH].
Qed.

Lemma preserves_for_each (P : PokerGame -> Prop) {A} (body : A -> M unit) :
  (forall x, preserves P (body x)) -> forall l, preserves P (for_each l body).
Proof.
  intros Hb l; induction l as [|x l IH]; simpl.
  - apply keeps_self_preserves, pure_keeps_self, pure_ret.
  - apply preserves_bind; [apply Hb | intros _; apply IH].
Qed.

Lemma keeps_self_print (line : string) : keeps_self (print line).
Proof. now intros w. Qed.

Lemma keeps_self_rand_below (n : nat) : keeps_self (rand_below n).
Proof. intros w; unfold rand_below; now destruct (entropy w). Qed.

Lemma keeps_self_pick (k : nat) : forall pop, keeps_self (pick pop k).
Proof.
  induction k as [|k IH]; intros pop; simpl.
  - apply pure_keeps_self, pure_ret.
  - apply keeps_self_bind; [apply keeps_self_rand_below|].
    intros i. destruct (nth_error pop i).
    + apply keeps_self_bind; [apply IH|].
      intros; apply pure_keeps_self, pure_ret.
    + apply pure_keeps_self, pure_raise.
Qed.

Lemma keeps_self_random_sample (d : deck_t) (k : nat) :
  keeps_self (random_sample d k).
Proof.
  destruct d as [l|l]; simpl.
  - destruct (length l <? k)%nat;
      [apply pure_keeps_self, pure_raise | apply keeps_self_pick].
  - apply pure_keeps_self, pure_raise.
Qed.

(* ================================================================= *)
(** ** Drawing the missing community cards *)

Lemma list_pop_snoc (l : list card) (x : card) :
  list_pop (l ++ [x]) = Ok (x, l).
Proof.
  unfold list_pop. destruct (l ++ [x]) as [|y t] eqn:E.
  - destruct l; discriminate.
  - rewrite <- E, removelast_last. f_equal. f_equal.
    assert (H : forall (t : list card) y d, last (y :: t) d = last t y).
    { clear. induction t as [|z t IH]; intros y d; [reflexivity|].
      change (last (y :: z :: t) d) with (last (z :: t) d).
      rewrite IH. symmetry. apply IH. }
    rewrite <- (H t y x), <- E. apply last_last.
Qed.

Lemma pure_draw_one (st : deck_t * list card) : pure (draw_one st).
Proof.
  destruct st as [d b]. unfold draw_one.
  apply pure_bind; [apply pure_lift|].
  intros [c d']. apply pure_ret.
Qed.

Lemma pure_draw_community : pure draw_community.
Proof.
  unfold draw_community. apply pure_bind; [apply pure_get_self|].
  intros g. apply pure_repeat_loop. apply pure_draw_one.
Qed.


Lemma draw_loop_short (w : World) :
  forall (n : nat) (l b : list card),
    (length l < n)%nat ->
    repeat_loop n draw_one (PyList l, b) w = (Raise IndexError, w).
Proof.
  induction n as [|n IH]; intros l b Hn; [lia|].
  rewrite repeat_loop_S.
  destruct l as [|x l0] eqn:El.
  - reflexivity.
  - destruct (exists_last (l := l)) as (l' & y & E); [now rewrite El|].
    rewrite <- El, E.
    rewrite (bind_Ok _ _ w (PyList l', b ++ [y]) w).
    + apply IH. rewrite <- El, E, length_app in Hn. simpl in Hn. lia.
    + unfold draw_one, bind, lift, deck_pop. now rewrite list_pop_snoc.
Qed.

(* ================================================================= *)
(** ** One round of the simulation and the whole loop *)

Ltac pure_steps :=
  repeat first
    [ apply pure_ret | apply pure_raise | apply pure_lift
    | apply pure_get_self | apply pure_draw_community
    | apply pure_bind; [ | intros ? ]
    | match goal with
      | |- pure (match ?x with _ => _ end) => destruct x
      end ].

Lemma pure_trial_locals lib hands : pure (trial_locals lib hands).
Proof. unfold trial_locals. pure_steps. Qed.

(** The locals of a round, written with the intermediate values named. *)
Lemma trial_locals_Ok lib hands w rd rb cc hole ph p ss :
  draw_community w = (Ok (rd, rb), w) ->
  mapM (Card_new lib) (rb ++ burned_cards (self w)) = Ok cc ->
  dict_getitem (KStr "player1") (players_hands (self w)) = Ok hole ->
  mapM (Card_new lib) hole = Ok ph ->
  evaluate lib ph cc = Ok p ->
  mapM (fun hand => obind (mapM (Card_new lib) hand)
                          (fun h => evaluate lib h cc)) hands = Ok ss ->
  trial_locals lib hands w = (Ok (p, hands, ss), w).
Proof.
  intros Hd Hc Hh Hp He Hs.
  unfold trial_locals, bind, get_self, lift, ret.
  rewrite Hd, Hc, Hh, Hp, He, map_id, Hs. reflexivity.
Qed.

Lemma trial_locals_hands lib hands w p oh ss w' :
  trial_locals lib hands w = (Ok (p, oh, ss), w') -> oh = hands /\ w' = w.
Proof.
  intros H. pose proof (pure_trial_locals lib hands w) as Hw.
  rewrite H in Hw. simpl in Hw. split; [|assumption].
  revert H. unfold trial_locals, bind, get_self, lift, ret.
  repeat match goal with
         | |- context [match ?o with _ => _ end] => destruct o
         end; intros H; inversion H; subst; try apply map_id.
Qed.

Lemma simulate_trial_verdict lib hands w win_count :
  simulate_trial lib (win_count, hands) w =
    (obind (round_verdict lib hands w)
           (fun b : bool => Ok (if b then win_count + 1 else win_count, hands)),
     w).
Proof.
  unfold simulate_trial, round_verdict, bind.
  destruct (trial_locals lib hands w) as [[[[p oh] ss]|e] w'] eqn:E; simpl.
  - apply trial_locals_hands in E as [-> ->].
    now destruct (all_beaten p ss).
  - pose proof (pure_trial_locals lib hands w) as Hw.
    rewrite E in Hw. simpl in Hw. now subst.
Qed.

Lemma simulate_loop_verdict lib hands w :
  forall (n : nat) (win_count : Z),
    repeat_loop (S n) (simulate_trial lib) (win_count, hands) w =
      (obind (round_verdict lib hands w)
             (fun b : bool =>
                Ok (if b then win_count + Z.of_nat (S n) else win_count, hands)),
       w).
Proof.
  induction n as [|n IH]; intros win_count.
  - rewrite repeat_loop_S. unfold bind at 1. rewrite simulate_trial_verdict.
    destruct (round_verdict lib hands w) as [[|]|e]; reflexivity.
  - rewrite repeat_loop_S. unfold bind at 1. rewrite simulate_trial_verdict.
    destruct (round_verdict lib hands w) as [[|]|e]; cbn [obind].
    + rewrite IH. cbn [obind]. do 3 f_equal. lia.
    + rewrite IH. reflexivity.
    + reflexivity.
Qed.

Lemma ten_thousand_rounds : exists n, range_len 10000 = S n.
Proof.
  destruct (range_len 10000) as [|n] eqn:E; [|now exists n].
  apply (f_equal Z.of_nat) in E. unfold range_len in E.
  rewrite Z2Nat.id in E; simpl in E; lia.
Qed.

Lemma simulate_by_verdict lib hands w :
  simulate_remaining_game lib hands w =
    (obind (round_verdict lib hands w)
           (fun b : bool => Ok (if b then 1%Q else 0%Q)), w).
Proof.
  unfold simulate_remaining_game, for_range, bind.
  destruct ten_thousand_rounds as [n E].
  assert (Hn : Z.of_nat (range_len 10000) = 10000)
    by (unfold range_len; now rewrite Z2Nat.id).
  rewrite E in *. rewrite simulate_loop_verdict, Hn.
  destruct (round_verdict lib hands w) as [[|]|e]; reflexivity.
Qed.

(* ================================================================= *)
(** ** update_board, one card at a time *)

Lemma update_board_card_present (w : World) (d : list card) (c : card) :
  deck (self w) = PyList d -> In c d ->
  exists l1 l2,
    d = l1 ++ c :: l2 /\ ~ In c l1 /\
    update_board_card c w =
      (Ok tt, {| self := set_deck (PyList (l1 ++ l2))
                           (set_board (board (self w) ++ [c]) (self w));
                 entropy := entropy w; stdout := stdout w |}).
Proof.
  intros Hd Hin.
  destruct (list_remove_In c d Hin) as (l1 & l2 & E & Hn & Hr).
  exists l1, l2. repeat split; try assumption.
  unfold update_board_card, bind, get_self, lift, modify_self, deck_contains.
  rewrite Hd. rewrite (proj2 (py_in_In c d) Hin). simpl.
  rewrite Hd. simpl. rewrite Hr. reflexivity.
Qed.

Lemma update_board_card_absent (w : World) (d : list card) (c : card) :
  deck (self w) = PyList d -> ~ In c d ->
  update_board_card c w =
    (Ok tt, {| self := self w; entropy := entropy w;
               stdout := stdout w ++ [not_in_deck_message c] |}).
Proof.
  intros Hd Hin.
  unfold update_board_card, bind, get_self, lift, print, deck_contains.
  rewrite Hd. now rewrite (proj2 (py_in_not_In c d) Hin).
Qed.

Lemma update_board_card_DeckObj (w : World) (cs : list card) (c : card) :
  deck (self w) = DeckObj cs ->
  update_board_card c w = (Raise TypeError, w).
Proof.
  intros Hd. unfold update_board_card, bind, get_self, lift, deck_contains.
  now rewrite Hd.
Qed.

Lemma update_board_card_list (w : World) (d : list card) (c : card) :
  deck (self w) = PyList d ->
  exists w1 d1, update_board_card c w = (Ok tt, w1) /\
                deck (self w1) = PyList d1.
Proof.
  intros Hd. destruct (in_dec card_eq_dec c d) as [Hin|Hin].
  - destruct (update_board_card_present w d c Hd Hin) as (l1 & l2 & _ & _ & E).
    rewrite E. eexists _, _. split; reflexivity.
  - rewrite (update_board_card_absent w d c Hd Hin).
    eexists _, _. split; [reflexivity | exact Hd].
Qed.

Lemma update_board_list (args : list card) :
  forall (w : World) (d : list card),
    deck (self w) = PyList d ->
    exists w' d', update_board args w = (Ok tt, w') /\
                  deck (self w') = PyList d'.
Proof.
  induction args as [|c args IH]; intros w d Hd.
  - exists w, d. split; [reflexivity | assumption].
  - destruct (update_board_card_list w d c Hd) as (w1 & d1 & E & Hd1).
    destruct (IH w1 d1 Hd1) as (w' & d' & E' & Hd').
    exists w', d'. split; [|assumption].
    unfold update_board in *. simpl. now rewrite (bind_Ok _ _ _ _ _ E).
Qed.

(* ================================================================= *)
(** ** Deck and board in reachable worlds *)

Lemma NoDup_full_deck : NoDup full_deck.
Proof.
  assert (E : nodup card_eq_dec full_deck = full_deck) by (vm_compute; reflexivity).
  rewrite <- E. apply NoDup_nodup.
Qed.

Lemma sound_init (n : Z) (hole_cards : list card) :
  sound (__init__ n hole_cards).
Proof.
  unfold sound; simpl. split; [apply NoDup_full_deck|].
  split; [apply incl_refl | tauto].
Qed.

Lemma sound_smaller_deck (g : PokerGame) (d d' : list card) :
  deck g = PyList d -> sound g ->
  NoDup d' -> incl d' d ->
  sound (set_deck (PyList d') g).
Proof.
  unfold sound. intros -> (Hnd & Hincl & Hb) Hnd' Hi. simpl.
  split; [assumption|]. split.
  - intros c Hc. apply Hincl, Hi, Hc.
  - intros c Hc Hc'. apply (Hb c Hc). apply Hi, Hc'.
Qed.

Lemma preserves_sound_modify (f : PokerGame -> PokerGame) :
  (forall g, deck (f g) = deck g /\ board (f g) = board g) ->
  preserves sound (modify_self f).
Proof.
  intros Hf w H. simpl. unfold sound in *.
  destruct (Hf (self w)) as [-> ->]. assumption.
Qed.

Lemma preserves_without (P : PokerGame -> Prop)
      (look : PokerGame -> outcome (list card)) :
  filter_closed P ->
  preserves P
    (g <- get_self ;;
     mine <- lift (look g) ;;
     d <- lift (deck_without mine (deck g)) ;;
     modify_self (set_deck d)).
Proof.
  intros HP w H. unfold bind, get_self, lift, modify_self.
  destruct (look (self w)) as [mine|e]; simpl; [|assumption].
  destruct (deck (self w)) as [l|l] eqn:Hd; simpl; [|assumption].
  now apply HP.
Qed.

Lemma filter_closed_sound : filter_closed sound.
Proof.
  intros g l f Hd H. apply (sound_smaller_deck _ l); try assumption.
  - apply NoDup_filter. unfold sound in H. rewrite Hd in H. tauto.
  - apply incl_filter.
Qed.

Lemma preserves_sound_without (look : PokerGame -> outcome (list card)) :
  preserves sound
    (g <- get_self ;;
     mine <- lift (look g) ;;
     d <- lift (deck_without mine (deck g)) ;;
     modify_self (set_deck d)).
Proof. apply preserves_without, filter_closed_sound. Qed.

Lemma list_remove_Ok (c : card) (l l' : list card) :
  list_remove c l = Ok l' ->
  exists l1 l2, l = l1 ++ c :: l2 /\ l' = l1 ++ l2.
Proof.
  revert l'. induction l as [|y l IH]; simpl; intros l' H; [discriminate|].
  destruct (card_eqb c y) eqn:E.
  - apply card_eqb_eq in E; subst y. inversion H; subst.
    now exists [], l'.
  - destruct (list_remove c l) as [r|e]; simpl in H; [|discriminate].
    inversion H; subst.
    destruct (IH r eq_refl) as (l1 & l2 & -> & ->).
    now exists (y :: l1), l2.
Qed.

Lemma preserves_sound_remove (c : card) :
  preserves sound
    (g <- get_self ;;
     d <- lift (deck_remove c (deck g)) ;;
     modify_self (set_deck d)).
Proof.
  intros w H. unfold bind, get_self, lift, modify_self.
  destruct (deck (self w)) as [l|l] eqn:Hd; simpl; [|assumption].
  destruct (list_remove c l) as [l'|e] eqn:Hr; simpl; [|assumption].
  destruct (list_remove_Ok c l l' Hr) as (l1 & l2 & -> & ->).
  apply (sound_smaller_deck _ (l1 ++ c :: l2)); try assumption.
  - unfold sound in H. rewrite Hd in H.
    apply NoDup_remove_1 with (a := c). tauto.
  - intros x Hx. apply in_app_or in Hx. apply in_or_app.
    destruct Hx; [now left | right; now right].
Qed.

Lemma preserves_sound_update_board_card (c : card) :
  preserves sound (update_board_card c).
Proof.
  intros w H. destruct (deck (self w)) as [d|cs] eqn:Hd.
  - destruct (in_dec card_eq_dec c d) as [Hin|Hin].
    + destruct (update_board_card_present w d c Hd Hin)
        as (l1 & l2 & E & Hn & ->).
      unfold sound in *. rewrite Hd in H. destruct H as (Hnd & Hi & Hb).
      simpl. subst d. split; [now apply NoDup_remove_1 in Hnd|]. split.
      * intros x Hx. apply Hi. apply in_app_or in Hx. apply in_or_app.
        destruct Hx; [now left | right; now right].
      * intros x Hx Hx'. apply in_app_or in Hx. destruct Hx as [Hx|[<-|[]]].
        -- apply (Hb x Hx). apply in_app_or in Hx'. apply in_or_app.
           destruct Hx'; [now left | right; now right].
        -- now apply NoDup_remove_2 in Hnd.
    + now rewrite (update_board_card_absent w d c Hd Hin).
  - now rewrite (update_board_card_DeckObj w cs c Hd).
Qed.

Ltac sound_steps_with extra :=
  repeat first
    [ extra
    | apply preserves_sound_without
    | apply preserves_sound_remove
    | apply preserves_sound_update_board_card
    | apply preserves_sound_modify; intros ?; split; reflexivity
    | apply keeps_self_preserves; first
        [ apply keeps_self_random_sample | apply keeps_self_print
        | apply keeps_self_pick
        | apply pure_keeps_self; first
            [ apply pure_ret | apply pure_raise | apply pure_lift
            | apply pure_get_self | apply pure_draw_community ] ]
    | apply preserves_for_each; intros ?
    | apply preserves_repeat_loop; intros ?
    | apply preserves_bind; [ | intros ? ]
    | match goal with
      | |- preserves _ (match ?x with _ => _ end) => destruct x
      end ].

Ltac sound_steps := sound_steps_with fail.

Lemma preserves_sound_deal_hole_cards : preserves sound deal_hole_cards.
Proof. unfold deal_hole_cards. sound_steps. Qed.

Lemma preserves_sound_deal_opponent_hands :
  preserves sound deal_opponent_hands.
Proof. unfold deal_opponent_hands, deal_opponent_hand. sound_steps. Qed.

Lemma preserves_sound_update_board (args : list card) :
  preserves sound (update_board args).
Proof. unfold update_board. sound_steps. Qed.

Lemma preserves_sound_reveal_card (c : card) : preserves sound (reveal_card c).
Proof. unfold reveal_card. sound_steps. Qed.

Lemma preserves_sound_add_to_opponent_hand (k : pykey) (c : card) :
  preserves sound (add_to_opponent_hand k c).
Proof. unfold add_to_opponent_hand. sound_steps. Qed.

(* ================================================================= *)
(** ** Random draws always succeed on a large enough population *)

Lemma rand_below_lt (n : nat) (w : World) :
  (0 < n)%nat ->
  exists i w', rand_below n w = (Ok i, w') /\ (i < n)%nat /\
               self w' = self w /\ stdout w' = stdout w.
Proof.
  intros Hn. unfold rand_below. destruct (entropy w) as [|r rs].
  - exists O, w. auto.
  - eexists _, _. split; [reflexivity|]. split; [|split; reflexivity].
    apply Nat.mod_upper_bound. lia.
Qed.

Lemma remove_at_perm {A} (l : list A) :
  forall i c, nth_error l i = Some c ->
              Permutation (c :: remove_at i l) l /\
              S (length (remove_at i l)) = length l.
Proof.
  induction l as [|x l IH]; intros [|i] c H; simpl in *; try discriminate.
  - inversion H; subst. split; [apply Permutation_refl | reflexivity].
  - destruct (IH i c H) as [P L]. split; [|now rewrite L].
    apply perm_trans with (x :: c :: remove_at i l);
      [apply perm_swap | now apply perm_skip].
Qed.

Lemma pick_Ok (k : nat) :
  forall (pop : list card) (w : World),
    (k <= length pop)%nat ->
    exists cs rest w',
      pick pop k w = (Ok cs, w') /\ self w' = self w /\
      stdout w' = stdout w /\ length cs = k /\ Permutation (cs ++ rest) pop.
Proof.
  induction k as [|k IH]; intros pop w Hk.
  - exists [], pop, w. simpl. repeat split; auto.
  - destruct (rand_below_lt (length pop) w) as (i & w1 & E1 & Hi & Hs1 & Ho1);
      [lia|].
    destruct (nth_error pop i) as [c|] eqn:Hc;
      [|apply nth_error_None in Hc; lia].
    destruct (remove_at_perm pop i c Hc) as [P L].
    destruct (IH (remove_at i pop) w1) as (cs & rest & w2 & E2 & Hs2 & Ho2 & Hl & P2);
      [lia|].
    exists (c :: cs), rest, w2. repeat split.
    + simpl. rewrite (bind_Ok _ _ _ _ _ E1), Hc.
      now rewrite (bind_Ok _ _ _ _ _ E2).
    + congruence.
    + congruence.
    + simpl. now rewrite Hl.
    + simpl. apply perm_trans with (c :: remove_at i pop);
        [now apply perm_skip | assumption].
Qed.

Lemma Deck_Ok (lib : Deuces) (w : World) :
  exists cs w',
    Deck lib w = (Ok (DeckObj cs), w') /\ self w' = self w /\
    stdout w' = stdout w /\ Permutation cs (GetFullDeck lib).
Proof.
  destruct (pick_Ok (length (GetFullDeck lib)) (GetFullDeck lib) w)
    as (cs & rest & w' & E & Hs & Ho & Hl & P); [lia|].
  exists cs, w'. unfold Deck. rewrite (bind_Ok _ _ _ _ _ E).
  repeat split; try assumption.
  assert (rest = []) as ->.
  { apply Permutation_length in P. rewrite length_app in P.
    destruct rest; [reflexivity | simpl in P; lia]. }
  now rewrite app_nil_r in P.
Qed.

Lemma new_game_result (lib : Deuces) (n : Z) (hole_cards : list card)
      (w : World) :
  exists cs w',
    new_game lib n hole_cards w = (Ok tt, w') /\
    Permutation cs (GetFullDeck lib) /\
    stdout w' = stdout w /\
    self w' = {| deck := DeckObj cs;
                 num_players := n;
                 players_hands := [(KStr "player1", hole_cards)];
                 opponents_hands := no_opponents_hands n;
                 board := [];
                 burned_cards := [] |}.
Proof.
  unfold new_game, bind at 1 2 3, modify_self at 1 2 3. simpl.
  match goal with
  | |- context [bind (Deck lib) _ ?w0] =>
      destruct (Deck_Ok lib w0) as (cs & w1 & E & Hs & Ho & P);
      rewrite (bind_Ok _ _ _ _ _ E)
  end.
  exists cs. eexists. split; [reflexivity|].
  split; [assumption|]. simpl. split; [assumption|].
  rewrite Hs. reflexivity.
Qed.

Lemma preserves_sound_new_game lib n hole_cards :
  preserves sound (new_game lib n hole_cards).
Proof.
  intros w _.
  destruct (new_game_result lib n hole_cards w) as (cs & w' & -> & _ & _ & E).
  simpl. rewrite E. reflexivity.
Qed.

Lemma pure_simulate_remaining_game lib hands :
  pure (simulate_remaining_game lib hands).
Proof. intros w. now rewrite simulate_by_verdict. Qed.

Lemma pure_for_each_acc {A S} (body : A -> S -> M S) :
  (forall x s, pure (body x s)) ->
  forall l s, pure (for_each_acc l body s).
Proof.
  intros Hb l; induction l as [|x l IH]; intros s; simpl.
  - apply pure_ret.
  - apply pure_bind; [apply Hb | apply IH].
Qed.

Lemma pure_get_beating_hands lib : pure (get_beating_hands lib).
Proof.
  unfold get_beating_hands.
  apply pure_bind; [apply pure_get_self | intros g].
  apply pure_bind; [apply pure_lift | intros cards].
  apply pure_for_each_acc. intros combo acc.
  unfold beating_round. pure_steps.
Qed.

Ltac sound_methods lib :=
  sound_steps_with
    ltac:(first
      [ apply preserves_sound_deal_opponent_hands
      | apply keeps_self_preserves, pure_keeps_self,
          (pure_simulate_remaining_game lib) ]).

Lemma preserves_sound_calculate_win_probabilities lib :
  preserves sound (calculate_win_probabilities lib).
Proof. unfold calculate_win_probabilities. sound_methods lib. Qed.

Lemma preserves_sound_calculate_hand_probability lib hand_type :
  preserves sound (calculate_hand_probability lib hand_type).
Proof.
  unfold calculate_hand_probability, for_range, hand_trial.
  sound_methods lib.
Qed.

Lemma preserves_sound_run lib (c : method_call) : preserves sound (run lib c).
Proof.
  destruct c; simpl.
  - apply preserves_sound_deal_hole_cards.
  - apply preserves_bind; [apply preserves_sound_deal_opponent_hands|].
    intros; sound_steps.
  - apply preserves_sound_update_board.
  - apply preserves_sound_new_game.
  - apply keeps_self_preserves, pure_keeps_self.
    apply pure_bind; [apply pure_simulate_remaining_game | intros; apply pure_ret].
  - apply preserves_bind; [apply preserves_sound_calculate_win_probabilities|].
    intros; sound_steps.
  - apply preserves_bind; [apply preserves_sound_calculate_hand_probability|].
    intros; sound_steps.
  - apply preserves_sound_reveal_card.
  - apply preserves_sound_add_to_opponent_hand.
  - apply keeps_self_preserves, pure_keeps_self.
    apply pure_bind; [apply pure_get_beating_hands | intros; apply pure_ret].
Qed.

Lemma reachable_sound lib (w : World) : reachable lib w -> sound (self w).
Proof.
  induction 1 as [n hole_cards rnd | w c _ IH].
  - apply sound_init.
  - now apply preserves_sound_run.
Qed.

Lemma reachable_deck_size lib (w : World) :
  reachable lib w -> (deck_size (deck (self w)) <= 52)%nat.
Proof.
  intros H. apply reachable_sound in H. unfold sound in H.
  destruct (deck (self w)) as [d|cs]; simpl; [|lia].
  destruct H as (Hnd & Hi & _).
  change 52%nat with (length full_deck).
  now apply NoDup_incl_length.
Qed.

(* ================================================================= *)
(** ** What dealing to the opponents changes *)

Lemma preserves_modify (P : PokerGame -> Prop) (f : PokerGame -> PokerGame) :
  (forall g, P g -> P (f g)) -> preserves P (modify_self f).
Proof. intros Hf w H. now apply Hf. Qed.

Lemma preserves_deal_opponent_hand (P : PokerGame -> Prop) (k : pykey) :
  (forall g k v, P g ->
     P (set_opponents_hands (dict_setitem k v (opponents_hands g)) g)) ->
  filter_closed P ->
  preserves P (deal_opponent_hand k).
Proof.
  intros Ho Hf. unfold deal_opponent_hand.
  apply preserves_bind;
    [apply keeps_self_preserves, pure_keeps_self, pure_get_self | intros g].
  apply preserves_bind;
    [apply keeps_self_preserves, keeps_self_random_sample | intros hand].
  apply preserves_bind; [apply preserves_modify; intros; now apply Ho | intros _].
  now apply preserves_without.
Qed.

Lemma preserves_deal_opponent_hands (P : PokerGame -> Prop) :
  (forall g k v, P g ->
     P (set_opponents_hands (dict_setitem k v (opponents_hands g)) g)) ->
  filter_closed P ->
  preserves P deal_opponent_hands.
Proof.
  intros Ho Hf. unfold deal_opponent_hands.
  apply preserves_bind;
    [apply keeps_self_preserves, pure_keeps_self, pure_get_self | intros g].
  apply preserves_bind.
  - apply preserves_for_each. intros k. now apply preserves_deal_opponent_hand.
  - intros _. apply keeps_self_preserves, pure_keeps_self.
    apply pure_bind; [apply pure_get_self | intros; apply pure_ret].
Qed.

(** Dealing leaves the player's hand, the board and the burned cards. *)
Lemma deal_opponent_hands_frame (w : World) :
  players_hands (self (snd (deal_opponent_hands w))) = players_hands (self w) /\
  board (self (snd (deal_opponent_hands w))) = board (self w) /\
  burned_cards (self (snd (deal_opponent_hands w))) = burned_cards (self w).
Proof.
  apply (preserves_deal_opponent_hands
           (fun g => players_hands g = players_hands (self w) /\
                     board g = board (self w) /\
                     burned_cards g = burned_cards (self w))).
  - intros g k v H. exact H.
  - intros g l f _ H. exact H.
  - auto.
Qed.

Lemma dict_setitem_find (k : pykey) (v : list card) (d : dict) :
  dict_find k (dict_setitem k v d) = Some v.
Proof.
  induction d as [|[k' v'] d IH]; simpl.
  - unfold pykey_eqb. now destruct (pykey_eq_dec k k).
  - destruct (pykey_eqb k k') eqn:E; simpl; now rewrite E.
Qed.

Lemma dict_setitem_nonempty (k : pykey) (v : list card) (d : dict) :
  dict_setitem k v d <> [].
Proof. destruct d as [|[k' v'] d]; simpl; [|destruct (pykey_eqb k k')]; discriminate. Qed.

Lemma filter_length_lt {A} (f : A -> bool) (l : list A) (x : A) :
  In x l -> f x = false -> (length (filter f l) < length l)%nat.
Proof.
  induction l as [|y l IH]; simpl; [tauto|].
  intros [->|H] Hx.
  - rewrite Hx. pose proof (filter_length_le f l). lia.
  - specialize (IH H Hx). destruct (f y); simpl; lia.
Qed.

(** A round of dealing that returns has taken at least one card off the
    deck. *)
Lemma deal_opponent_hand_shrinks (k : pykey) (w w' : World) :
  deal_opponent_hand k w = (Ok tt, w') ->
  (deck_size (deck (self w')) < deck_size (deck (self w)))%nat.
Proof.
  unfold deal_opponent_hand, bind at 1, get_self at 1.
  destruct (deck (self w)) as [l|cs] eqn:Hd; simpl;
    [|unfold bind, raise; discriminate].
  destruct (length l <? 2)%nat eqn:Hl;
    [unfold bind, raise; discriminate|].
  apply Nat.ltb_ge in Hl.
  destruct (pick_Ok 2 l w Hl) as (cs & rest & w1 & E & Hs & _ & Hlen & P).
  rewrite (bind_Ok _ _ _ _ _ E).
  unfold bind, modify_self, get_self, lift, dict_getitem. simpl.
  rewrite dict_setitem_find, Hs, Hd. simpl.
  intros H. inversion H; subst; clear H. simpl.
  destruct cs as [|c cs]; [discriminate|].
  apply filter_length_lt with (x := c).
  - apply (Permutation_in c P). now left.
  - simpl. unfold card_eqb at 1. now destruct (card_eq_dec c c).
Qed.

Lemma for_each_deal_le (ks : list pykey) (w : World) :
  (deck_size (deck (self (snd (for_each ks deal_opponent_hand w))))
   <= deck_size (deck (self w)))%nat.
Proof.
  apply (preserves_for_each
           (fun g => (deck_size (deck g) <= deck_size (deck (self w)))%nat)).
  - intros k. apply preserves_deal_opponent_hand.
    + intros g k0 v H. exact H.
    + intros g l f Hd H. rewrite Hd in H. simpl in *.
      pose proof (filter_length_le f l). lia.
  - lia.
Qed.

Lemma deal_opponent_hands_shrinks (w w' : World) (hs : list (list card)) :
  opponents_hands (self w) <> [] ->
  deal_opponent_hands w = (Ok hs, w') ->
  (deck_size (deck (self w')) < deck_size (deck (self w)))%nat.
Proof.
  intros Hne. unfold deal_opponent_hands, bind at 1, get_self at 1.
  destruct (opponents_hands (self w)) as [|[k v] rest]; [congruence|].
  simpl. unfold bind at 1 2.
  destruct (deal_opponent_hand k w) as [[[]|e] w1] eqn:E1; [|discriminate].
  apply deal_opponent_hand_shrinks in E1.
  pose proof (for_each_deal_le (dict_keys rest) w1) as Hle.
  destruct (for_each (dict_keys rest) deal_opponent_hand w1) as [[[]|e] w2];
    [|discriminate].
  unfold bind, get_self, ret. intros H. inversion H; subst.
  simpl in Hle. lia.
Qed.

Lemma deal_opponent_hands_nonempty (w : World) :
  opponents_hands (self w) <> [] ->
  opponents_hands (self (snd (deal_opponent_hands w))) <> [].
Proof.
  apply (preserves_deal_opponent_hands (fun g => opponents_hands g <> [])).
  - intros g k v _. simpl. apply dict_setitem_nonempty.
  - intros g l f _ H. exact H.
Qed.

Lemma deal_opponent_hands_nobody (w : World) :
  opponents_hands (self w) = [] -> deal_opponent_hands w = (Ok [], w).
Proof.
  intros H. unfold deal_opponent_hands, bind, get_self, ret.
  rewrite H. simpl. now rewrite H.
Qed.

(* ================================================================= *)
(** ** calculate_win_probabilities *)

Lemma calculate_win_first_branch lib (w : World) :
  board (self w) = [] -> burned_cards (self w) = [] ->
  calculate_win_probabilities lib w =
    bind deal_opponent_hands (simulate_remaining_game lib) w.
Proof.
  intros Hb Hr. unfold calculate_win_probabilities, bind at 1, get_self.
  now rewrite Hb, Hr.
Qed.

Lemma calculate_win_other_branches lib (w : World) :
  board (self w) <> [] \/ burned_cards (self w) <> [] ->
  calculate_win_probabilities lib w =
    (obind (fst (deal_opponent_hands w))
           (fun _ => Raise AttributeError),
     snd (deal_opponent_hands w)).
Proof.
  intros H. unfold calculate_win_probabilities, bind at 1, get_self.
  assert (E : (length (board (self w)) =? 0)%nat
              && (length (burned_cards (self w)) =? 0)%nat = false).
  { apply andb_false_iff.
    destruct H as [H|H]; [left | right]; apply Nat.eqb_neq;
      intros E; apply length_zero_iff_nil in E; contradiction. }
  rewrite E.
  destruct (length (board (self w)) <? 5)%nat;
    unfold bind, lift, list_values;
    destruct (deal_opponent_hands w) as [[hs|e] w1]; reflexivity.
Qed.

Lemma calculate_win_world lib (w : World) :
  snd (calculate_win_probabilities lib w) = snd (deal_opponent_hands w).
Proof.
  destruct (board (self w)) as [|c b] eqn:Hb;
    [destruct (burned_cards (self w)) as [|c b] eqn:Hr|].
  - rewrite calculate_win_first_branch by assumption.
    unfold bind. destruct (deal_opponent_hands w) as [[hs|e] w1]; simpl;
      [apply pure_simulate_remaining_game | reflexivity].
  - rewrite calculate_win_other_branches; [reflexivity|].
    right. rewrite Hr. discriminate.
  - rewrite calculate_win_other_branches; [reflexivity|].
    left. rewrite Hb. discriminate.
Qed.

(* ================================================================= *)
(** ** The loop of calculate_hand_probability *)

Lemma hand_trial_Ok lib t (win_count count' : Z) (w w' : World) :
  hand_trial lib t win_count w = (Ok count', w') ->
  exists hs, deal_opponent_hands w = (Ok hs, w').
Proof.
  unfold hand_trial, bind at 1.
  pose proof (pure_draw_community w) as Hp.
  destruct (draw_community w) as [[[rd rb]|e] w0]; simpl in Hp; subst w0;
    [|discriminate].
  unfold bind at 1, get_self at 1.
  unfold bind at 1, lift at 1.
  destruct (dict_getitem (KStr "player1") (players_hands (self w)));
    [|discriminate].
  unfold bind at 1, lift at 1.
  destruct (evaluate lib a (rb ++ burned_cards (self w))); [|discriminate].
  unfold bind at 1.
  destruct (deal_opponent_hands w) as [[hs|e] w1] eqn:E; [|discriminate].
  unfold bind, lift.
  match goal with
  | |- context [mapM ?f hs] => destruct (mapM f hs) as [ss|e]
  end; [|discriminate].
  destruct (any_reaches t ss); intros H; inversion H; subst; now exists hs.
Qed.

Lemma pure_hand_trial_nobody lib t (win_count : Z) (w : World) :
  opponents_hands (self w) = [] ->
  snd (hand_trial lib t win_count w) = w.
Proof.
  intros Hno. unfold hand_trial, bind at 1.
  pose proof (pure_draw_community w) as Hp.
  destruct (draw_community w) as [[[rd rb]|e] w0]; simpl in Hp; subst w0;
    [|reflexivity].
  unfold bind at 1, get_self at 1.
  unfold bind at 1, lift at 1.
  destruct (dict_getitem (KStr "player1") (players_hands (self w)));
    [|reflexivity].
  unfold bind at 1, lift at 1.
  destruct (evaluate lib a (rb ++ burned_cards (self w))); [|reflexivity].
  unfold bind at 1. rewrite (deal_opponent_hands_nobody w Hno).
  unfold bind, lift. simpl. now destruct (any_reaches t []).
Qed.

Lemma hand_loop_nobody lib t :
  forall (n : nat) (win_count : Z) (w : World),
    opponents_hands (self w) = [] ->
    snd (repeat_loop n (hand_trial lib t) win_count w) = w.
Proof.
  induction n as [|n IH]; intros win_count w Hno; [reflexivity|].
  rewrite repeat_loop_S. unfold bind.
  pose proof (pure_hand_trial_nobody lib t win_count w Hno) as Hp.
  destruct (hand_trial lib t win_count w) as [[c|e] w1]; simpl in Hp; subst w1.
  - now apply IH.
  - reflexivity.
Qed.

(** With an opponent to deal to, every round that returns shortens the
    deck, so the loop cannot run more rounds than the deck has cards. *)
Lemma hand_loop_raises lib t :
  forall (n : nat) (win_count : Z) (w : World),
    opponents_hands (self w) <> [] ->
    (deck_size (deck (self w)) < n)%nat ->
    exists e w', repeat_loop n (hand_trial lib t) win_count w = (Raise e, w').
Proof.
  induction n as [|n IH]; intros win_count w Hne Hsz; [lia|].
  rewrite repeat_loop_S. unfold bind.
  destruct (hand_trial lib t win_count w) as [[c|e] w1] eqn:E.
  - destruct (hand_trial_Ok _ _ _ _ _ _ E) as [hs Hd].
    pose proof (deal_opponent_hands_shrinks w w1 hs Hne Hd) as Hlt.
    pose proof (deal_opponent_hands_nonempty w Hne) as Hne1.
    rewrite Hd in Hne1. simpl in Hne1.
    apply IH; [assumption | lia].
  - now exists e, w1.
Qed.

Lemma calculate_hand_probability_returns lib hand_type (w w' : World)
      (v : option Q) :
  (deck_size (deck (self w)) < range_len 10000)%nat ->
  calculate_hand_probability lib hand_type w = (Ok v, w') ->
  self w' = self w.
Proof.
  intros Hsz.
  unfold calculate_hand_probability, bind at 1, lift, getattr_HAND_EVAL.
  destruct (HAND_EVAL lib) as [table|]; [|discriminate].
  destruct (table_find hand_type table) as [t|].
  - unfold bind, for_range.
    destruct (opponents_hands (self w)) as [|kv rest] eqn:Hop.
    + pose proof (hand_loop_nobody lib t (range_len 10000) 0 w Hop) as Hp.
      destruct (repeat_loop (range_len 10000) (hand_trial lib t) 0 w)
        as [[c|e] w1]; simpl in Hp; subst w1; [|discriminate].
      unfold ret. intros H. now inversion H.
    + destruct (hand_loop_raises lib t (range_len 10000) 0 w) as (e & w1 & E);
        [rewrite Hop; discriminate | assumption |].
      rewrite E. discriminate.
  - unfold bind, print, ret. simpl. intros H. now inversion H.
Qed.

(* ================================================================= *)
(** ** The properties of the specification *)




(** C10.  All rounds of [simulate_remaining_game] are the same round:
    whatever [win_count] is, a round run in world [w] with the given
    opponent hands reaches one and the same verdict, consumes no entropy,
    prints nothing and leaves the game object and the opponent hands as
    they were.  So the 10000 rounds agree, and the call returns exactly 0
    or exactly 1 (or ends with the exception of its first round). *)
Theorem simulate_rounds_identical lib (hands : list (list card)) (w : World) :
  exists verdict : outcome bool,
    (forall win_count : Z,
       simulate_trial lib (win_count, hands) w =
         (obind verdict
                (fun b : bool =>
                   Ok (if b then win_count + 1 else win_count, hands)), w)) /\
    simulate_remaining_game lib hands w =
      (obind verdict (fun b : bool => Ok (if b then 1%Q else 0%Q)), w) /\
    (forall v w', simulate_remaining_game lib hands w = (Ok v, w') ->
                  (v = 0%Q \/ v = 1%Q) /\ w' = w).
Proof.
  exists (round_verdict lib hands w). split; [|split].
  - intros win_count. apply simulate_trial_verdict.
  - apply simulate_by_verdict.
  - intros v w'. rewrite simulate_by_verdict.
    destruct (round_verdict lib hands w) as [[|]|e]; simpl;
      intros H; inversion H; auto.
Qed.

(** C1 (what the code does instead).  A round in which the player's score
    is strictly lower, that is stronger, than the score of every opponent
    is not counted as a win when there is an opponent at all: the test is
    [player_score > score]. *)
Theorem simulate_trial_skips_stronger_player
        lib (hands oh : list (list card)) (w w' : World)
        (win_count p : Z) (ss : list Z) :
  trial_locals lib hands w = (Ok (p, oh, ss), w') ->
  ss <> [] ->
  (forall s, In s ss -> p < s) ->
  simulate_trial lib (win_count, hands) w = (Ok (win_count, oh), w').
Proof.
  intros E Hne Hlt. unfold simulate_trial, bind. rewrite E.
  destruct ss as [|s ss]; [congruence|].
  unfold all_beaten. simpl.
  assert (H : (p >? s) = false).
  { rewrite Z.gtb_ltb. apply Z.ltb_ge.
    specialize (Hlt s (or_introl eq_refl)). lia. }
  rewrite H. reflexivity.
Qed.

Lemma simulate_trial_skips_stronger_player_witness :
  simulate_trial Fixture.deuces (0, [[Tok "Ks"; Tok "Kd"]])
                 Fixture.aces_on_river
  = (Ok (0, [[Tok "Ks"; Tok "Kd"]]), Fixture.aces_on_river)
  /\ simulate_remaining_game Fixture.deuces [[Tok "Ks"; Tok "Kd"]]
                             Fixture.aces_on_river
     = (Ok 0%Q, Fixture.aces_on_river).
Proof.
  split.
  - eapply (simulate_trial_skips_stronger_player Fixture.deuces).
    + vm_compute. reflexivity.
    + discriminate.
    + intros s [<-|[]]. reflexivity.
  - vm_compute. reflexivity.
Defined.

(** C8 (as the code has it).  [simulate_remaining_game] never looks at
    the number of cards of an opponent hand: each hand is converted card
    by card and scored as it is.  Whenever the draw, the conversions and
    the evaluator succeed, the hands being complete or not, the
    simulation runs and a probability is returned. *)
Theorem simulate_scores_hands_as_given
        lib (hands : list (list card)) (w : World)
        (rd : deck_t) (rb cc hole ph : list card) (p : Z) (ss : list Z) :
  draw_community w = (Ok (rd, rb), w) ->
  mapM (Card_new lib) (rb ++ burned_cards (self w)) = Ok cc ->
  dict_getitem (KStr "player1") (players_hands (self w)) = Ok hole ->
  mapM (Card_new lib) hole = Ok ph ->
  evaluate lib ph cc = Ok p ->
  mapM (fun hand => obind (mapM (Card_new lib) hand)
                          (fun h => evaluate lib h cc)) hands = Ok ss ->
  simulate_remaining_game lib hands w =
    (Ok (if all_beaten p ss then 1%Q else 0%Q), w).
Proof.
  intros Hd Hc Hh Hp He Hs.
  rewrite simulate_by_verdict. unfold round_verdict.
  rewrite (trial_locals_Ok lib hands w rd rb cc hole ph p ss); try assumption.
  simpl. now destruct (all_beaten p ss).
Qed.

Lemma simulate_scores_hands_as_given_witness :
  simulate_remaining_game Fixture.deuces [[Tok "Ks"]; []]
                          Fixture.aces_on_river
  = (Ok 0%Q, Fixture.aces_on_river).
Proof.
  eapply eq_trans.
  - eapply (simulate_scores_hands_as_given Fixture.deuces);
      vm_compute; reflexivity.
  - vm_compute. reflexivity.
Defined.

(** C8 (the claim fails).  An opponent hand of one card is not rejected:
    the simulation runs and returns a probability. *)
Lemma simulate_accepts_incomplete_hand :
  exists (hand : list card) (v : Q),
    (length hand < 2)%nat /\
    simulate_remaining_game Fixture.deuces [hand] Fixture.aces_on_river
    = (Ok v, Fixture.aces_on_river).
Proof.
  exists [Tok "Ks"], 0%Q. split; [simpl; lia | vm_compute; reflexivity].
Qed.

(** C2 (what the code does instead).  The constructor puts the given
    hole cards into the player's hand and leaves them in the deck as
    well: whenever a hole card is one of the 52 cards, the zones of the
    new game overlap. *)
Theorem init_zones_overlap (n : Z) (hole_cards : list card) (c : card) :
  In c full_deck -> In c hole_cards ->
  ~ zones_partition (__init__ n hole_cards).
Proof.
  intros Hdeck Hhole [Hdis _].
  apply (Hdis 0%nat 1%nat full_deck hole_cards c); auto.
Qed.

Lemma init_zones_overlap_witness :
  ~ zones_partition (__init__ 2 [Tok "As"; Tok "7d"]).
Proof.
  apply (init_zones_overlap 2 [Tok "As"; Tok "7d"] (Tok "As")).
  - vm_compute. tauto.
  - simpl. tauto.
Defined.

(** C4 (what the code does instead).  Once a card is on the board or
    burned, [calculate_win_probabilities] deals to the opponents and then
    fails on [.values()] of the list it got back: it never returns a
    probability, while the branch for an empty board and no burned card
    does simulate. *)
Theorem calculate_win_later_stages lib (w : World) :
  board (self w) <> [] \/ burned_cards (self w) <> [] ->
  calculate_win_probabilities lib w =
    (obind (fst (deal_opponent_hands w)) (fun _ => Raise AttributeError),
     snd (deal_opponent_hands w))
  /\ forall v, fst (calculate_win_probabilities lib w) <> Ok v.
Proof.
  intros H. rewrite (calculate_win_other_branches lib w H).
  split; [reflexivity|].
  intros v. simpl. destruct (fst (deal_opponent_hands w)); discriminate.
Qed.

Lemma calculate_win_later_stages_witness :
  fst (calculate_win_probabilities Fixture.deuces Fixture.after_flop)
  = Raise AttributeError
  /\ exists v,
       fst (calculate_win_probabilities Fixture.deuces Fixture.preflop)
       = Ok v.
Proof.
  split.
  - destruct (calculate_win_later_stages Fixture.deuces Fixture.after_flop)
      as [E _].
    + left. vm_compute. discriminate.
    + rewrite E. vm_compute. reflexivity.
  - exists 0%Q. vm_compute. reflexivity.
Defined.

(** C5 (what the code does instead).  In a game as the constructor
    builds it [get_beating_hands] returns nothing: the deck is a list,
    which has no attribute [cards]. *)
Theorem get_beating_hands_after_init
        lib (n : Z) (hole_cards : list card) (rnd : list nat)
        (out : list string) :
  get_beating_hands lib {| self := __init__ n hole_cards;
                           entropy := rnd; stdout := out |}
  = (Raise AttributeError,
     {| self := __init__ n hole_cards; entropy := rnd; stdout := out |}).
Proof. reflexivity. Qed.

(** With a [Deck] object of two cards or more the first round of the loop
    ends with an exception as well: the evaluator refuses the hand, or
    else [players_hands] has no key [0]. *)
Lemma get_beating_hands_Deck_raises lib (w : World) (c1 c2 : card)
      (cs : list card) :
  deck (self w) = DeckObj (c1 :: c2 :: cs) ->
  dict_find (KInt 0) (players_hands (self w)) = None ->
  exists e, get_beating_hands lib w = (Raise e, w).
Proof.
  intros Hd Hk. unfold get_beating_hands, bind at 1, get_self at 1.
  rewrite Hd. unfold bind at 1, lift at 1. simpl.
  unfold bind at 1, beating_round at 1, bind at 1, get_self at 1.
  unfold bind at 1, lift at 1.
  destruct (evaluate lib _ _) as [s|e]; [|now exists e].
  unfold bind at 1, lift at 1, dict_getitem. rewrite Hk.
  now exists KeyError.
Qed.

(** C6 (what the code does instead).  [new_game] always returns; it
    leaves the given hole cards as the player's hand, an empty hand for
    every opponent, an empty board and no burned card; but the deck it
    leaves is a [Deck] object holding the 52 deuces integers, not the list
    of card strings of the constructor, and [update_board] and
    [reveal_card] raise [TypeError] on it. *)
Theorem new_game_leaves_Deck_object
        lib (n : Z) (hole_cards : list card) (w : World) :
  exists cs w',
    new_game lib n hole_cards w = (Ok tt, w') /\
    deck (self w') = DeckObj cs /\
    Permutation cs (GetFullDeck lib) /\
    players_hands (self w') = [(KStr "player1", hole_cards)] /\
    (forall k hand, In (k, hand) (opponents_hands (self w')) -> hand = []) /\
    board (self w') = [] /\
    burned_cards (self w') = [] /\
    (forall c args, update_board (c :: args) w' = (Raise TypeError, w')) /\
    (forall c, reveal_card c w' = (Raise TypeError, w')).
Proof.
  destruct (new_game_result lib n hole_cards w) as (cs & w' & E & P & _ & Hs).
  exists cs, w'. rewrite Hs. simpl.
  repeat split; try assumption; try reflexivity.
  - intros k hand Hin. unfold no_opponents_hands in Hin.
    apply in_map_iff in Hin. destruct Hin as (i & Hi & _).
    now inversion Hi.
  - intros c args. unfold update_board. simpl.
    apply bind_Raise. apply (update_board_card_DeckObj w' cs c).
    now rewrite Hs.
  - intros c. unfold reveal_card, bind, get_self, lift. now rewrite Hs.
Qed.

(** C3 (the claim fails).  A call of [calculate_win_probabilities] that
    returns has taken the opponent's two cards off the persistent deck and
    stored them in [opponents_hands]. *)
Lemma calculate_win_changes_deck :
  exists (v : Q) (w' : World),
    calculate_win_probabilities Fixture.deuces Fixture.preflop = (Ok v, w') /\
    deck_size (deck (self Fixture.preflop)) = 52%nat /\
    deck_size (deck (self w')) = 50%nat /\
    opponents_hands (self Fixture.preflop) = [(KStr "player2", [])] /\
    opponents_hands (self w')
    = [(KStr "player2", [Tok "2d"; Tok "2s"])].
Proof.
  eexists. eexists. split; [vm_compute; reflexivity|].
  repeat split.
Qed.

(** C3 (as the code has it).  In a reachable world
    [calculate_win_probabilities] leaves the world that its call of
    [deal_opponent_hands] leaves, whatever the outcome: the simulation
    itself changes nothing, and the player's hand, the board and the
    burned cards are as before; deck and opponents' hands are as dealt.
    A call of [calculate_hand_probability] that returns has left the whole
    game object unchanged. *)
Theorem estimation_frame lib (w : World) :
  reachable lib w ->
  (snd (calculate_win_probabilities lib w) = snd (deal_opponent_hands w) /\
   players_hands (self (snd (calculate_win_probabilities lib w)))
   = players_hands (self w) /\
   board (self (snd (calculate_win_probabilities lib w))) = board (self w) /\
   burned_cards (self (snd (calculate_win_probabilities lib w)))
   = burned_cards (self w)) /\
  (forall hand_type v w',
     calculate_hand_probability lib hand_type w = (Ok v, w') ->
     self w' = self w).
Proof.
  intros Hr. split.
  - rewrite calculate_win_world. split; [reflexivity|].
    apply deal_opponent_hands_frame.
  - intros hand_type v w'.
    apply calculate_hand_probability_returns.
    pose proof (reachable_deck_size lib w Hr). unfold range_len. lia.
Qed.

Lemma estimation_frame_witness :
  board (self (snd (calculate_win_probabilities Fixture.deuces
                                                Fixture.after_flop)))
  = [Tok "2h"; Tok "3h"; Tok "4h"]
  /\ self (snd (calculate_hand_probability Fixture.deuces "fluhs"
                                           Fixture.after_flop))
     = self Fixture.after_flop.
Proof.
  destruct (estimation_frame Fixture.deuces Fixture.after_flop)
    as [(_ & _ & Hb & _) Hh].
  - apply (reachable_call Fixture.deuces _
             (call_update_board [Tok "2h"; Tok "3h"; Tok "4h"])).
    apply reachable_start.
  - split.
    + rewrite Hb. vm_compute. reflexivity.
    + apply (Hh "fluhs" None). vm_compute. reflexivity.
Defined.

(** C7 (what the code does instead).  When the deck is a [Deck] object,
    as [new_game] leaves it, [update_board] with one card or more raises
    [TypeError] at the membership test of its first card: no card is
    moved, no error line is printed and the remaining cards are not
    looked at. *)
Theorem update_board_on_Deck_object
        (w : World) (cs : list card) (c : card) (rest : list card) :
  deck (self w) = DeckObj cs ->
  update_board (c :: rest) w = (Raise TypeError, w).
Proof.
  intros Hd. unfold update_board. simpl.
  apply bind_Raise. now apply update_board_card_DeckObj with cs.
Qed.

Lemma update_board_on_Deck_object_witness :
  reachable Fixture.deuces Samples.restarted /\
  update_board [Tok "2h"; Tok "3h"; Tok "4h"] Samples.restarted
  = (Raise TypeError, Samples.restarted).
Proof.
  split.
  - apply (reachable_call Fixture.deuces _
             (call_new_game 2 [Tok "Kh"; Tok "Kd"])).
    apply reachable_start.
  - eapply update_board_on_Deck_object. vm_compute. reflexivity.
Defined.

(** X19.  In a reachable world whose deck is a list, [update_board] never
    raises and handles its cards one after the other, each in the world
    the previous one left.  A card that is in the deck goes to the end of
    the board and its first (and only) occurrence leaves the deck, and
    nothing is printed.  A card that is not in the deck leaves the game
    object as it is and prints the error line.  A card that is on the
    board is not in the deck, so passing it again prints the error and
    leaves the board as it is. *)
Theorem update_board_partial_application
        lib (w : World) (d : list card) (c : card) (rest : list card) :
  reachable lib w ->
  deck (self w) = PyList d ->
  exists w1,
    update_board_card c w = (Ok tt, w1) /\
    update_board (c :: rest) w = update_board rest w1 /\
    (exists w', update_board (c :: rest) w = (Ok tt, w')) /\
    (In c d ->
     exists l1 l2,
       d = l1 ++ c :: l2 /\ ~ In c (l1 ++ l2) /\
       deck (self w1) = PyList (l1 ++ l2) /\
       board (self w1) = board (self w) ++ [c] /\
       players_hands (self w1) = players_hands (self w) /\
       opponents_hands (self w1) = opponents_hands (self w) /\
       burned_cards (self w1) = burned_cards (self w) /\
       stdout w1 = stdout w) /\
    (~ In c d ->
     self w1 = self w /\
     stdout w1 = stdout w ++ [not_in_deck_message c]) /\
    (In c (board (self w)) ->
     self w1 = self w /\
     stdout w1 = stdout w ++ [not_in_deck_message c]).
Proof.
  intros Hr Hd.
  pose proof (reachable_sound lib w Hr) as Hs.
  unfold sound in Hs. rewrite Hd in Hs. destruct Hs as (Hnd & _ & Hb).
  destruct (update_board_card_list w d c Hd) as (w1 & d1 & E & Hd1).
  exists w1. split; [assumption|].
  assert (Hstep : update_board (c :: rest) w = update_board rest w1).
  { unfold update_board. simpl. now rewrite (bind_Ok _ _ _ _ _ E). }
  split; [assumption|]. split.
  { rewrite Hstep.
    destruct (update_board_list rest w1 d1 Hd1) as (w' & _ & E' & _).
    now exists w'. }
  assert (Habs : ~ In c d ->
                 self w1 = self w /\
                 stdout w1 = stdout w ++ [not_in_deck_message c]).
  { intros Hin. rewrite (update_board_card_absent w d c Hd Hin) in E.
    inversion E; subst. simpl. auto. }
  split; [|split].
  - intros Hin.
    destruct (update_board_card_present w d c Hd Hin)
      as (l1 & l2 & Ed & _ & E1).
    rewrite E1 in E. inversion E; subst. simpl.
    exists l1, l2. repeat split.
    now apply NoDup_remove_2.
  - exact Habs.
  - intros Hon. apply Habs. now apply Hb.
Qed.

Lemma update_board_partial_application_witness :
  update_board [Tok "9h"; Tok "2h"; Tok "Zz"; Tok "9c"] Fixture.after_flop
  = update_board [Tok "2h"; Tok "Zz"; Tok "9c"]
      (Fixture.after (update_board_card (Tok "9h")) Fixture.after_flop)
  /\ board (self (Fixture.after
                    (update_board [Tok "9h"; Tok "2h"; Tok "Zz"; Tok "9c"])
                    Fixture.after_flop))
     = [Tok "2h"; Tok "3h"; Tok "4h"; Tok "9h"; Tok "9c"]
  /\ stdout (Fixture.after
               (update_board [Tok "9h"; Tok "2h"; Tok "Zz"; Tok "9c"])
               Fixture.after_flop)
     = ["Error: Card 2h is not in the deck.";
        "Error: Card Zz is not in the deck."]%string.
Proof.
  destruct (update_board_partial_application
              Fixture.deuces Fixture.after_flop
              (deck_zone (self Fixture.after_flop)) (Tok "9h")
              [Tok "2h"; Tok "Zz"; Tok "9c"])
    as (w1 & E1 & Hstep & _).
  - apply (reachable_call Fixture.deuces _
             (call_update_board [Tok "2h"; Tok "3h"; Tok "4h"])).
    apply reachable_start.
  - vm_compute. reflexivity.
  - split; [|split].
    + rewrite Hstep. unfold Fixture.after. now rewrite E1.
    + vm_compute. reflexivity.
    + vm_compute. reflexivity.
Defined.

(* ================================================================= *)
(** ** Each round of a method, written out *)

Lemma pick_two (d : list card) (w : World) :
  (2 <= length d)%nat ->
  exists c1 c2 rest w1,
    pick d 2 w = (Ok [c1; c2], w1) /\ self w1 = self w /\
    stdout w1 = stdout w /\ Permutation (c1 :: c2 :: rest) d.
Proof.
  intros H.
  destruct (pick_Ok 2 d w H) as (cs & rest & w1 & E & Hs & Ho & Hl & P).
  destruct cs as [|c1 [|c2 [|c3 cs]]]; try discriminate.
  now exists c1, c2, rest, w1.
Qed.

Lemma random_sample_short (l : list card) :
  (length l < 2)%nat -> random_sample (PyList l) 2 = raise ValueError.
Proof.
  intros H. unfold random_sample.
  now rewrite (proj2 (Nat.ltb_lt _ _) H).
Qed.

Lemma random_sample_two (l : list card) :
  (2 <= length l)%nat -> random_sample (PyList l) 2 = pick l 2.
Proof.
  intros H. unfold random_sample.
  now rewrite (proj2 (Nat.ltb_ge _ _) H).
Qed.

Lemma deal_opponent_hand_short (k : pykey) (w : World) (d : list card) :
  deck (self w) = PyList d -> (length d < 2)%nat ->
  deal_opponent_hand k w = (Raise ValueError, w).
Proof.
  intros Hd Hl. unfold deal_opponent_hand, bind at 1, get_self at 1.
  rewrite Hd, random_sample_short by assumption. reflexivity.
Qed.

Lemma deal_opponent_hand_DeckObj (k : pykey) (w : World) (cs : list card) :
  deck (self w) = DeckObj cs ->
  deal_opponent_hand k w = (Raise TypeError, w).
Proof.
  intros Hd. unfold deal_opponent_hand, bind at 1, get_self at 1.
  now rewrite Hd.
Qed.

Lemma deal_opponent_hand_two (k : pykey) (w : World) (d : list card) :
  deck (self w) = PyList d -> (2 <= length d)%nat ->
  exists c1 c2 rest w',
    deal_opponent_hand k w = (Ok tt, w') /\
    Permutation (c1 :: c2 :: rest) d /\
    stdout w' = stdout w /\
    self w' = set_deck (PyList (filter (fun c => negb (py_in c [c1; c2])) d))
                (set_opponents_hands
                   (dict_setitem k [c1; c2] (opponents_hands (self w)))
                   (self w)).
Proof.
  intros Hd Hl.
  destruct (pick_two d w Hl) as (c1 & c2 & rest & w1 & E & Hs & Ho & P).
  exists c1, c2, rest.
  unfold deal_opponent_hand, bind at 1, get_self at 1.
  rewrite Hd, random_sample_two by assumption.
  rewrite (bind_Ok _ _ _ _ _ E).
  unfold bind, modify_self, get_self, lift, dict_getitem. simpl.
  rewrite dict_setitem_find, Hs, Hd. simpl.
  eexists. split; [reflexivity|]. simpl. auto.
Qed.

Lemma deal_hole_cards_short (w : World) (d : list card) :
  deck (self w) = PyList d -> (length d < 2)%nat ->
  deal_hole_cards w = (Raise ValueError, w).
Proof.
  intros Hd Hl. unfold deal_hole_cards, bind at 1, get_self at 1.
  rewrite Hd, random_sample_short by assumption. reflexivity.
Qed.

Lemma deal_hole_cards_DeckObj (w : World) (cs : list card) :
  deck (self w) = DeckObj cs -> deal_hole_cards w = (Raise TypeError, w).
Proof.
  intros Hd. unfold deal_hole_cards, bind at 1, get_self at 1.
  now rewrite Hd.
Qed.

Lemma deal_hole_cards_two (w : World) (d : list card) :
  deck (self w) = PyList d -> (2 <= length d)%nat ->
  exists c1 c2 rest w',
    deal_hole_cards w = (Ok tt, w') /\
    Permutation (c1 :: c2 :: rest) d /\
    stdout w' = stdout w /\
    self w' = set_deck (PyList (filter (fun c => negb (py_in c [c1; c2])) d))
                (set_players_hands
                   (dict_setitem (KStr "player1") [c1; c2]
                                 (players_hands (self w)))
                   (self w)).
Proof.
  intros Hd Hl.
  destruct (pick_two d w Hl) as (c1 & c2 & rest & w1 & E & Hs & Ho & P).
  exists c1, c2, rest.
  unfold deal_hole_cards, bind at 1, get_self at 1.
  rewrite Hd, random_sample_two by assumption.
  rewrite (bind_Ok _ _ _ _ _ E).
  unfold bind, modify_self, get_self, lift, dict_getitem. simpl.
  rewrite dict_setitem_find, Hs, Hd. simpl.
  eexists. split; [reflexivity|]. simpl. auto.
Qed.

Lemma reveal_card_present (w : World) (d : list card) (c : card) :
  deck (self w) = PyList d -> In c d ->
  exists l1 l2,
    d = l1 ++ c :: l2 /\ ~ In c l1 /\
    reveal_card c w =
      (Ok tt, {| self := set_deck (PyList (l1 ++ l2))
                           (set_burned_cards (burned_cards (self w) ++ [c])
                                             (self w));
                 entropy := entropy w; stdout := stdout w |}).
Proof.
  intros Hd Hin.
  destruct (list_remove_In c d Hin) as (l1 & l2 & E & Hn & Hr).
  exists l1, l2. repeat split; try assumption.
  unfold reveal_card, bind, get_self, lift, modify_self, deck_contains.
  rewrite Hd. rewrite (proj2 (py_in_In c d) Hin). simpl.
  rewrite Hd. simpl. rewrite Hr. reflexivity.
Qed.

Lemma reveal_card_absent (w : World) (d : list card) (c : card) :
  deck (self w) = PyList d -> ~ In c d ->
  reveal_card c w =
    (Ok tt, {| self := self w; entropy := entropy w;
               stdout := stdout w ++ [not_in_deck_message c] |}).
Proof.
  intros Hd Hin.
  unfold reveal_card, bind, get_self, lift, print, deck_contains.
  rewrite Hd. now rewrite (proj2 (py_in_not_In c d) Hin).
Qed.

Lemma reveal_card_DeckObj (w : World) (cs : list card) (c : card) :
  deck (self w) = DeckObj cs -> reveal_card c w = (Raise TypeError, w).
Proof.
  intros Hd. unfold reveal_card, bind, get_self, lift, deck_contains.
  now rewrite Hd.
Qed.

Lemma add_to_opponent_hand_unknown (w : World) (k : pykey) (c : card) :
  dict_find k (opponents_hands (self w)) = None ->
  add_to_opponent_hand k c w =
    (Ok tt, {| self := self w; entropy := entropy w;
               stdout := stdout w ++ [no_opponent_message k] |}).
Proof.
  intros Hk. unfold add_to_opponent_hand, bind, get_self, dict_contains.
  now rewrite Hk.
Qed.

Lemma add_to_opponent_hand_DeckObj (w : World) (k : pykey) (c : card)
      (hand cs : list card) :
  dict_find k (opponents_hands (self w)) = Some hand ->
  deck (self w) = DeckObj cs ->
  add_to_opponent_hand k c w = (Raise TypeError, w).
Proof.
  intros Hk Hd.
  unfold add_to_opponent_hand, bind, get_self, lift, dict_contains,
    deck_contains.
  now rewrite Hk, Hd.
Qed.

Lemma add_to_opponent_hand_absent (w : World) (k : pykey) (c : card)
      (hand d : list card) :
  dict_find k (opponents_hands (self w)) = Some hand ->
  deck (self w) = PyList d -> ~ In c d ->
  add_to_opponent_hand k c w =
    (Ok tt, {| self := self w; entropy := entropy w;
               stdout := stdout w ++ [not_in_deck_message c] |}).
Proof.
  intros Hk Hd Hin.
  unfold add_to_opponent_hand, bind, get_self, lift, dict_contains,
    deck_contains, print.
  rewrite Hk, Hd. now rewrite (proj2 (py_in_not_In c d) Hin).
Qed.

Lemma add_to_opponent_hand_present (w : World) (k : pykey) (c : card)
      (hand d : list card) :
  dict_find k (opponents_hands (self w)) = Some hand ->
  deck (self w) = PyList d -> In c d ->
  exists l1 l2,
    d = l1 ++ c :: l2 /\ ~ In c l1 /\
    add_to_opponent_hand k c w =
      (Ok tt, {| self := set_deck (PyList (l1 ++ l2))
                           (set_opponents_hands
                              (dict_setitem k (hand ++ [c])
                                            (opponents_hands (self w)))
                              (self w));
                 entropy := entropy w; stdout := stdout w |}).
Proof.
  intros Hk Hd Hin.
  destruct (list_remove_In c d Hin) as (l1 & l2 & E & Hn & Hr).
  exists l1, l2. repeat split; try assumption.
  unfold add_to_opponent_hand, bind, get_self, lift, dict_contains,
    deck_contains, modify_self, dict_getitem.
  rewrite Hk, Hd. rewrite (proj2 (py_in_In c d) Hin). simpl.
  rewrite Hd. simpl. rewrite Hr. reflexivity.
Qed.

(* ================================================================= *)
(** ** Every method works by atomic moves *)

Lemma by_moves_keeps lib {A} (m : M A) : keeps_self m -> by_moves lib m.
Proof. intros H w. rewrite H. apply rt_refl. Qed.

Lemma by_moves_bind lib {A B} (m : M A) (f : A -> M B) :
  by_moves lib m -> (forall a, by_moves lib (f a)) -> by_moves lib (bind m f).
Proof.
  intros Hm Hf w. unfold bind. specialize (Hm w).
  destruct (m w) as [[a|e] w']; simpl in *; [|assumption].
  eapply rt_trans; [exact Hm | apply Hf].
Qed.

Lemma by_moves_for_each lib {A} (body : A -> M unit) :
  (forall x, by_moves lib (body x)) ->
  forall l, by_moves lib (for_each l body).
Proof.
  intros Hb l; induction l as [|x l IH]; simpl.
  - apply by_moves_keeps, pure_keeps_self, pure_ret.
  - apply by_moves_bind; [apply Hb | intros _; apply IH].
Qed.

Lemma by_moves_repeat_loop lib {S} (body : S -> M S) :
  (forall s, by_moves lib (body s)) ->
  forall n s, by_moves lib (repeat_loop n body s).
Proof.
  intros Hb n; induction n as [|n IH]; intros s; simpl.
  - apply by_moves_keeps, pure_keeps_self, pure_ret.
  - apply by_moves_bind; [apply Hb | apply IH].
Qed.

Lemma by_moves_update_board_card lib (c : card) :
  by_moves lib (update_board_card c).
Proof.
  intros w. destruct (deck (self w)) as [d|cs] eqn:Hd.
  - destruct (in_dec card_eq_dec c d) as [Hin|Hin].
    + destruct (update_board_card_present w d c Hd Hin)
        as (l1 & l2 & E & Hn & ->).
      apply rt_step. simpl. apply move_to_board; [congruence | assumption].
    + rewrite (update_board_card_absent w d c Hd Hin). apply rt_refl.
  - rewrite (update_board_card_DeckObj w cs c Hd). apply rt_refl.
Qed.

Lemma by_moves_reveal_card lib (c : card) : by_moves lib (reveal_card c).
Proof.
  intros w. destruct (deck (self w)) as [d|cs] eqn:Hd.
  - destruct (in_dec card_eq_dec c d) as [Hin|Hin].
    + destruct (reveal_card_present w d c Hd Hin)
        as (l1 & l2 & E & Hn & ->).
      apply rt_step. simpl. apply move_to_burned; [congruence | assumption].
    + rewrite (reveal_card_absent w d c Hd Hin). apply rt_refl.
  - rewrite (reveal_card_DeckObj w cs c Hd). apply rt_refl.
Qed.

Lemma by_moves_add_to_opponent_hand lib (k : pykey) (c : card) :
  by_moves lib (add_to_opponent_hand k c).
Proof.
  intros w.
  destruct (dict_find k (opponents_hands (self w))) as [hand|] eqn:Hk;
    [|rewrite (add_to_opponent_hand_unknown w k c Hk); apply rt_refl].
  destruct (deck (self w)) as [d|cs] eqn:Hd;
    [|rewrite (add_to_opponent_hand_DeckObj w k c hand cs Hk Hd);
      apply rt_refl].
  destruct (in_dec card_eq_dec c d) as [Hin|Hin].
  - destruct (add_to_opponent_hand_present w k c hand d Hk Hd Hin)
      as (l1 & l2 & E & Hn & ->).
    apply rt_step. simpl.
    apply move_to_opponent; [congruence | assumption | assumption].
  - rewrite (add_to_opponent_hand_absent w k c hand d Hk Hd Hin).
    apply rt_refl.
Qed.

Lemma by_moves_deal_hole_cards lib : by_moves lib deal_hole_cards.
Proof.
  intros w. destruct (deck (self w)) as [d|cs] eqn:Hd.
  - destruct (le_lt_dec 2 (length d)) as [Hl|Hl].
    + destruct (deal_hole_cards_two w d Hd Hl)
        as (c1 & c2 & rest & w' & -> & P & _ & E).
      simpl. rewrite E.
      apply rt_step. now apply move_deal_hole with (rest := rest).
    + rewrite (deal_hole_cards_short w d Hd Hl). apply rt_refl.
  - rewrite (deal_hole_cards_DeckObj w cs Hd). apply rt_refl.
Qed.

Lemma dict_contains_setitem (k k' : pykey) (v : list card) (d : dict) :
  dict_contains k' d = true -> dict_contains k' (dict_setitem k v d) = true.
Proof.
  unfold dict_contains. induction d as [|[k0 v0] d IH]; simpl; [discriminate|].
  destruct (pykey_eqb k k0) eqn:E; simpl;
    destruct (pykey_eqb k' k0); auto.
Qed.

Lemma dict_keys_contains (k : pykey) (d : dict) :
  In k (dict_keys d) -> dict_contains k d = true.
Proof.
  unfold dict_contains. induction d as [|[k0 v0] d IH]; simpl; [tauto|].
  intros [->|H].
  - unfold pykey_eqb. now destruct (pykey_eq_dec k k).
  - destruct (pykey_eqb k k0); auto.
Qed.

Lemma deal_opponent_hand_moves lib (k : pykey) (w : World) :
  dict_contains k (opponents_hands (self w)) = true ->
  moves lib (self w) (self (snd (deal_opponent_hand k w))) /\
  forall k', dict_contains k' (opponents_hands (self w)) = true ->
             dict_contains k' (opponents_hands
                                 (self (snd (deal_opponent_hand k w)))) = true.
Proof.
  intros Hk. destruct (deck (self w)) as [d|cs] eqn:Hd.
  - destruct (le_lt_dec 2 (length d)) as [Hl|Hl].
    + destruct (deal_opponent_hand_two k w d Hd Hl)
        as (c1 & c2 & rest & w' & -> & P & _ & E).
      simpl. rewrite E. split.
      * apply rt_step. now apply move_deal_opponent with (rest := rest).
      * intros k' Hk'. simpl. now apply dict_contains_setitem.
    + rewrite (deal_opponent_hand_short k w d Hd Hl).
      split; [apply rt_refl | auto].
  - rewrite (deal_opponent_hand_DeckObj k w cs Hd).
    split; [apply rt_refl | auto].
Qed.

Lemma deal_rounds_moves lib (ks : list pykey) :
  forall w : World,
    (forall k, In k ks ->
               dict_contains k (opponents_hands (self w)) = true) ->
    moves lib (self w) (self (snd (for_each ks deal_opponent_hand w))).
Proof.
  induction ks as [|k ks IH]; intros w Hks; simpl; [apply rt_refl|].
  unfold bind.
  destruct (deal_opponent_hand_moves lib k w) as [Hm Hc];
    [apply Hks; now left|].
  destruct (deal_opponent_hand k w) as [[[]|e] w1]; simpl in *;
    [|assumption].
  eapply rt_trans; [exact Hm|]. apply IH.
  intros k' Hk'. apply Hc, Hks. now right.
Qed.

Lemma by_moves_deal_opponent_hands lib : by_moves lib deal_opponent_hands.
Proof.
  intros w. unfold deal_opponent_hands, bind at 1, get_self at 1.
  pose proof (deal_rounds_moves lib (dict_keys (opponents_hands (self w))) w
                (fun k => dict_keys_contains k _)) as H.
  unfold bind at 1.
  destruct (for_each (dict_keys (opponents_hands (self w)))
                     deal_opponent_hand w) as [[[]|e] w1]; simpl in *;
    assumption.
Qed.

Lemma by_moves_new_game lib (n : Z) (hole_cards : list card) :
  by_moves lib (new_game lib n hole_cards).
Proof.
  intros w.
  destruct (new_game_result lib n hole_cards w) as (cs & w' & -> & P & _ & E).
  simpl. rewrite E. apply rt_step. now apply move_new_game.
Qed.

Ltac moves_steps lib :=
  repeat first
    [ apply by_moves_deal_opponent_hands
    | apply by_moves_update_board_card
    | apply by_moves_keeps; first
        [ apply pure_keeps_self, (pure_simulate_remaining_game lib)
        | apply pure_keeps_self, (pure_get_beating_hands lib)
        | apply keeps_self_print
        | apply pure_keeps_self; first
            [ apply pure_ret | apply pure_raise | apply pure_lift
            | apply pure_get_self | apply pure_draw_community ] ]
    | apply by_moves_for_each; intros ?
    | apply by_moves_repeat_loop; intros ?
    | apply by_moves_bind; [ | intros ? ]
    | match goal with
      | |- by_moves _ (match ?x with _ => _ end) => destruct x
      end ].

Lemma by_moves_calculate_win_probabilities lib :
  by_moves lib (calculate_win_probabilities lib).
Proof. unfold calculate_win_probabilities. moves_steps lib. Qed.

Lemma by_moves_calculate_hand_probability lib (hand_type : string) :
  by_moves lib (calculate_hand_probability lib hand_type).
Proof.
  unfold calculate_hand_probability, for_range, hand_trial.
  moves_steps lib.
Qed.

Lemma by_moves_run lib (c : method_call) : by_moves lib (run lib c).
Proof.
  destruct c; simpl.
  - apply by_moves_deal_hole_cards.
  - moves_steps lib.
  - unfold update_board. moves_steps lib.
  - apply by_moves_new_game.
  - moves_steps lib.
  - apply by_moves_bind;
      [apply by_moves_calculate_win_probabilities | intros; moves_steps lib].
  - apply by_moves_bind;
      [apply by_moves_calculate_hand_probability | intros; moves_steps lib].
  - apply by_moves_reveal_card.
  - apply by_moves_add_to_opponent_hand.
  - moves_steps lib.
Qed.

Lemma moves_invariant lib (P : PokerGame -> Prop) :
  (forall g g', move lib g g' -> P g -> P g') ->
  forall g g', moves lib g g' -> P g -> P g'.
Proof.
  intros Hstep g g' H. induction H as [g g' H | g | g g1 g' _ IH1 _ IH2].
  - now apply Hstep.
  - auto.
  - auto.
Qed.

Lemma reachable_from_init lib (w : World) :
  reachable lib w ->
  exists n hole_cards, moves lib (__init__ n hole_cards) (self w).
Proof.
  induction 1 as [n hole_cards rnd | w c _ (n & hc & IH)].
  - exists n, hole_cards. apply rt_refl.
  - exists n, hc. eapply rt_trans; [exact IH | apply by_moves_run].
Qed.

(* ================================================================= *)
(** ** Counting cards *)

Abbreviation occ := (count_occ card_eq_dec) (only parsing).

Lemma occ_filter (f : card -> bool) (l : list card) (x : card) :
  occ (filter f l) x = if f x then occ l x else O.
Proof.
  induction l as [|y l IH]; simpl; [now destruct (f x)|].
  destruct (card_eq_dec y x) as [->|Hne].
  - destruct (f x) eqn:E; simpl; rewrite IH, ?E; [|reflexivity].
    now destruct (card_eq_dec x x).
  - destruct (f y); simpl; rewrite IH; [|reflexivity].
    now destruct (card_eq_dec y x).
Qed.

Lemma occ_py_in (x : card) (l : list card) :
  occ l x = O <-> py_in x l = false.
Proof. rewrite py_in_not_In. symmetry. apply count_occ_not_In. Qed.

Lemma occ_values_setitem_le (k : pykey) (v : list card) (d : dict)
      (x : card) :
  (occ (concat (dict_values (dict_setitem k v d))) x
   <= occ v x + occ (concat (dict_values d)) x)%nat.
Proof.
  induction d as [|[k0 v0] d IH]; simpl.
  - rewrite app_nil_r. lia.
  - destruct (pykey_eqb k k0); simpl; rewrite !count_occ_app; lia.
Qed.

Lemma occ_values_setitem (k : pykey) (v hand : list card) (d : dict)
      (x : card) :
  dict_find k d = Some hand ->
  (occ (concat (dict_values (dict_setitem k v d))) x + occ hand x
   = occ v x + occ (concat (dict_values d)) x)%nat.
Proof.
  induction d as [|[k0 v0] d IH]; simpl; [discriminate|].
  destruct (pykey_eqb k k0); simpl; rewrite !count_occ_app.
  - intros H. inversion H; subst. lia.
  - intros H. specialize (IH H). lia.
Qed.

Lemma occ_dealt_out (g : PokerGame) (x : card) :
  occ (dealt_out g) x
  = (occ (board g) x + occ (burned_cards g) x
     + occ (concat (dict_values (opponents_hands g))) x)%nat.
Proof. unfold dealt_out. rewrite !count_occ_app. lia. Qed.

Lemma occ_snoc (l : list card) (c x : card) :
  occ (l ++ [c]) x = (occ l x + occ [c] x)%nat.
Proof. apply count_occ_app. Qed.

Lemma occ_middle (l1 l2 : list card) (c x : card) :
  occ (l1 ++ c :: l2) x = (occ (l1 ++ l2) x + occ [c] x)%nat.
Proof.
  rewrite !count_occ_app. simpl. destruct (card_eq_dec c x); lia.
Qed.

(* ================================================================= *)
(** ** Properties every move keeps *)

Tactic Notation "fields" :=
  cbn [deck num_players players_hands opponents_hands board burned_cards
       set_deck set_players_hands set_opponents_hands set_board
       set_burned_cards].
Tactic Notation "fields" "in" hyp(H) :=
  cbn [deck num_players players_hands opponents_hands board burned_cards
       set_deck set_players_hands set_opponents_hands set_board
       set_burned_cards] in H.

Lemma PyList_inj (a b : list card) : PyList a = PyList b -> a = b.
Proof. now intros [= ->]. Qed.

Lemma tidy_move lib (g g' : PokerGame) : move lib g g' -> tidy g -> tidy g'.
Proof.
  intros Hm Ht.
  destruct Hm as [g l1 l2 c Hd Hn | g l1 l2 c Hd Hn
                 | g l1 l2 c k hand Hd Hn Hk
                 | g d rest c1 c2 k Hd P Hk | g d rest c1 c2 Hd P
                 | g n hc cs P];
    intros d' Hd'; fields in Hd'; try discriminate;
    apply PyList_inj in Hd'; subst d';
    specialize (Ht _ Hd);
    apply (NoDup_count_occ card_eq_dec); intros x;
    apply (proj1 (NoDup_count_occ card_eq_dec _)) with (x := x) in Ht;
    rewrite count_occ_app, occ_dealt_out in *; fields.
  - rewrite occ_middle in Ht. rewrite occ_snoc. lia.
  - rewrite occ_middle in Ht. rewrite occ_snoc. lia.
  - rewrite occ_middle in Ht.
    pose proof (occ_values_setitem k (hand ++ [c]) hand
                  (opponents_hands g) x Hk) as E.
    rewrite occ_snoc in E. lia.
  - pose proof (occ_values_setitem_le k [c1; c2] (opponents_hands g) x) as E.
    pose proof (proj1 (Permutation_count_occ card_eq_dec _ _) P x) as Ep.
    change (occ (c1 :: c2 :: rest) x)
      with (occ ([c1; c2] ++ rest) x) in Ep.
    rewrite count_occ_app in Ep.
    rewrite occ_filter. cbv beta.
    destruct (py_in x [c1; c2]) eqn:Hin; cbn [negb].
    + apply py_in_In, (count_occ_In card_eq_dec) in Hin. lia.
    + apply occ_py_in in Hin. lia.
  - rewrite occ_filter. cbv beta.
    destruct (negb (py_in x [c1; c2])); lia.
Qed.

Lemma no_opponents_hands_empty (n : Z) :
  concat (dict_values (no_opponents_hands n)) = [].
Proof.
  unfold no_opponents_hands, dict_values. rewrite map_map.
  induction (py_range 2 (n + 1)); simpl; auto.
Qed.

Lemma tidy_init (n : Z) (hole_cards : list card) :
  tidy (__init__ n hole_cards).
Proof.
  intros d Hd. apply PyList_inj in Hd. subst d.
  replace (dealt_out (__init__ n hole_cards)) with (@nil card).
  - rewrite app_nil_r. apply NoDup_full_deck.
  - unfold dealt_out. cbn [__init__ board burned_cards opponents_hands].
    now rewrite no_opponents_hands_empty.
Qed.

(** The player's hand is the only entry of [players_hands]. *)
Definition one_player (g : PokerGame) : Prop :=
  exists hole, players_hands g = [(KStr "player1", hole)].

Lemma one_player_move lib (g g' : PokerGame) :
  move lib g g' -> one_player g -> one_player g'.
Proof.
  intros Hm [hole H]. destruct Hm; unfold one_player; simpl; eauto.
  rewrite H. simpl. eauto.
Qed.

Lemma dict_setitem_keys (k : pykey) (v : list card) (d : dict) :
  dict_contains k d = true -> dict_keys (dict_setitem k v d) = dict_keys d.
Proof.
  unfold dict_contains. induction d as [|[k0 v0] d IH]; simpl; [discriminate|].
  destruct (pykey_eqb k k0); simpl; [reflexivity|].
  intros H. now rewrite IH.
Qed.

(** The opponents are the ones the constructor or [new_game] named. *)
Definition same_opponents (g : PokerGame) : Prop :=
  dict_keys (opponents_hands g)
  = dict_keys (no_opponents_hands (num_players g)).

Lemma same_opponents_move lib (g g' : PokerGame) :
  move lib g g' -> same_opponents g -> same_opponents g'.
Proof.
  intros Hm H. destruct Hm; unfold same_opponents in *; simpl; auto.
  - rewrite dict_setitem_keys; [assumption|].
    unfold dict_contains.
    match goal with Hk : dict_find _ _ = Some _ |- _ => now rewrite Hk end.
  - now rewrite dict_setitem_keys.
Qed.

(** A [Deck] object holds the cards of the full deuces deck, and nothing
    has been dealt from it. *)
Definition untouched_Deck lib (g : PokerGame) : Prop :=
  forall cs, deck g = DeckObj cs ->
             Permutation cs (GetFullDeck lib) /\ dealt_out g = [].

Lemma untouched_Deck_move lib (g g' : PokerGame) :
  move lib g g' -> untouched_Deck lib g -> untouched_Deck lib g'.
Proof.
  intros Hm _. destruct Hm; intros cs' Hd'; simpl in Hd'; try discriminate.
  inversion Hd'; subst cs'. split; [assumption|].
  unfold dealt_out. cbn [board burned_cards opponents_hands].
  now rewrite no_opponents_hands_empty.
Qed.

Lemma reachable_invariant lib (P : PokerGame -> Prop) :
  (forall n hole_cards, P (__init__ n hole_cards)) ->
  (forall g g', move lib g g' -> P g -> P g') ->
  forall w, reachable lib w -> P (self w).
Proof.
  intros Hinit Hmove w Hr.
  destruct (reachable_from_init lib w Hr) as (n & hc & Hm).
  apply (moves_invariant lib P Hmove _ _ Hm), Hinit.
Qed.

Lemma reachable_tidy lib (w : World) : reachable lib w -> tidy (self w).
Proof.
  apply reachable_invariant; [apply tidy_init | apply tidy_move].
Qed.

Lemma reachable_one_player lib (w : World) :
  reachable lib w -> one_player (self w).
Proof.
  apply reachable_invariant; [|apply one_player_move].
  intros n hc. now exists hc.
Qed.

Lemma reachable_same_opponents lib (w : World) :
  reachable lib w -> same_opponents (self w).
Proof.
  apply reachable_invariant; [|apply same_opponents_move].
  intros n hc. reflexivity.
Qed.

Lemma reachable_untouched_Deck lib (w : World) :
  reachable lib w -> untouched_Deck lib (self w).
Proof.
  apply reachable_invariant; [|apply untouched_Deck_move].
  intros n hc cs Hd. discriminate.
Qed.

(* ================================================================= *)
(** ** The names of the opponents *)

Lemma string_of_Z_inj (a b : Z) : string_of_Z a = string_of_Z b -> a = b.
Proof.
  unfold string_of_Z. intros H.
  apply (f_equal NilZero.int_of_string) in H.
  assert (Hn : forall z, Z.to_int z <> Decimal.Pos Decimal.Nil /\
                         Z.to_int z <> Decimal.Neg Decimal.Nil).
  { intros [|p|p]; simpl; split; try discriminate;
      intros [= E]; now apply DecimalPos.Unsigned.to_uint_nonnil in E. }
  rewrite !NilZero.isi in H by apply Hn.
  injection H as H. apply (f_equal Z.of_int) in H.
  now rewrite !DecimalZ.of_to in H.
Qed.

Lemma In_py_range (a b i : Z) : In i (py_range a b) -> a <= i < b.
Proof.
  unfold py_range, range_len. intros H.
  apply in_map_iff in H. destruct H as (k & <- & Hk).
  apply in_seq in Hk. lia.
Qed.

Lemma NoDup_py_range (a b : Z) : NoDup (py_range a b).
Proof.
  unfold py_range. apply Finite.Injective_map_NoDup; [|apply seq_NoDup].
  intros x y H. lia.
Qed.

Lemma no_opponents_hands_keys (n : Z) :
  NoDup (dict_keys (no_opponents_hands n)) /\
  ~ In (KStr "player1") (dict_keys (no_opponents_hands n)) /\
  length (no_opponents_hands n) = Z.to_nat (n - 1).
Proof.
  unfold no_opponents_hands, dict_keys. rewrite map_map. simpl.
  split; [|split].
  - apply Finite.Injective_map_NoDup; [|apply NoDup_py_range].
    intros x y H. injection H as H. now apply string_of_Z_inj.
  - intros H. apply in_map_iff in H. destruct H as (i & E & Hi).
    injection E as E. apply (string_of_Z_inj i 1) in E.
    apply In_py_range in Hi. lia.
  - rewrite length_map. unfold py_range, range_len.
    rewrite length_map, length_seq. f_equal. lia.
Qed.

Lemma dict_find_not_key (k : pykey) (d : dict) :
  ~ In k (dict_keys d) -> dict_find k d = None.
Proof.
  induction d as [|[k0 v0] d IH]; simpl; [reflexivity|].
  intros H. unfold pykey_eqb. destruct (pykey_eq_dec k k0) as [->|Hne].
  - exfalso. apply H. now left.
  - apply IH. tauto.
Qed.

Lemma dict_find_In (k : pykey) (h : list card) (d : dict) :
  NoDup (dict_keys d) -> In (k, h) d -> dict_find k d = Some h.
Proof.
  induction d as [|[k0 v0] d IH]; simpl; [tauto|].
  intros Hnd [E|Hin].
  - inversion E; subst. unfold pykey_eqb. now destruct (pykey_eq_dec k k).
  - inversion Hnd as [|? ? Hk0 Hnd']; subst.
    unfold pykey_eqb. destruct (pykey_eq_dec k k0) as [->|Hne].
    + exfalso. apply Hk0. change k0 with (fst (k0, h)).
      now apply in_map.
    + now apply IH.
Qed.

Lemma dict_setitem_find_other (k k' : pykey) (v : list card) (d : dict) :
  k' <> k -> dict_find k' (dict_setitem k v d) = dict_find k' d.
Proof.
  intros Hne. induction d as [|[k0 v0] d IH]; simpl.
  - unfold pykey_eqb. now destruct (pykey_eq_dec k' k).
  - destruct (pykey_eqb k k0) eqn:E; simpl.
    + unfold pykey_eqb in *. destruct (pykey_eq_dec k k0); [subst|discriminate].
      now destruct (pykey_eq_dec k' k0).
    + now rewrite IH.
Qed.

(* ================================================================= *)
(** ** Two cards off a deck without repeated cards *)

Lemma filter_length_perm {A} (f : A -> bool) (l l' : list A) :
  Permutation l l' -> length (filter f l) = length (filter f l').
Proof.
  induction 1 as [|x l l' _ IH|x y l|l l1 l' _ IH1 _ IH2]; simpl.
  - reflexivity.
  - destruct (f x); simpl; now rewrite IH.
  - destruct (f x), (f y); reflexivity.
  - now rewrite IH1.
Qed.

Lemma filter_all {A} (f : A -> bool) (l : list A) :
  (forall x, In x l -> f x = true) -> filter f l = l.
Proof.
  induction l as [|y l IH]; simpl; intros H; [reflexivity|].
  rewrite (H y) by now left. f_equal. apply IH. intros x Hx. apply H. now right.
Qed.

Lemma two_off_the_deck (d rest : list card) (c1 c2 : card) :
  NoDup d -> Permutation (c1 :: c2 :: rest) d ->
  c1 <> c2 /\ In c1 d /\ In c2 d /\
  (length (filter (fun c => negb (py_in c [c1; c2])) d) + 2 = length d)%nat /\
  ~ In c1 (filter (fun c => negb (py_in c [c1; c2])) d) /\
  ~ In c2 (filter (fun c => negb (py_in c [c1; c2])) d).
Proof.
  intros Hnd P.
  assert (Hnd' : NoDup (c1 :: c2 :: rest))
    by (apply (Permutation_NoDup (Permutation_sym P) Hnd)).
  inversion Hnd' as [|? ? H1 Hnd2]; subst.
  inversion Hnd2 as [|? ? H2 _]; subst.
  assert (E1 : card_eqb c1 c1 = true) by now apply card_eqb_eq.
  assert (E2 : card_eqb c2 c2 = true) by now apply card_eqb_eq.
  split; [intros ->; apply H1; now left|].
  split; [apply (Permutation_in _ P); now left|].
  split; [apply (Permutation_in _ P); right; now left|].
  split; [|split].
  - rewrite <- (Permutation_length P).
    rewrite <- (filter_length_perm _ _ _ P). simpl.
    rewrite E1. simpl. rewrite E2, orb_true_r. simpl.
    rewrite filter_all; [lia|].
    intros x Hx. apply negb_true_iff, orb_false_iff. split.
    + unfold card_eqb. destruct (card_eq_dec x c1); [subst|reflexivity].
      exfalso. apply H1. now right.
    + rewrite orb_false_r. unfold card_eqb.
      destruct (card_eq_dec x c2); [subst|reflexivity]. contradiction.
  - intros H. apply filter_In in H. destruct H as [_ H].
    simpl in H. now rewrite E1 in H.
  - intros H. apply filter_In in H. destruct H as [_ H].
    simpl in H. now rewrite E2, orb_true_r in H.
Qed.

(* ================================================================= *)
(** ** The rounds of deal_opponent_hands *)

Lemma deal_rounds_Ok (ks : list pykey) :
  forall (w : World) (d : list card),
    deck (self w) = PyList d -> NoDup d -> NoDup ks ->
    (forall k, In k ks -> dict_contains k (opponents_hands (self w)) = true) ->
    (2 * length ks <= length d)%nat ->
    exists w' d',
      for_each ks deal_opponent_hand w = (Ok tt, w') /\
      deck (self w') = PyList d' /\ NoDup d' /\ incl d' d /\
      (length d' + 2 * length ks = length d)%nat /\
      dict_keys (opponents_hands (self w'))
      = dict_keys (opponents_hands (self w)) /\
      (forall k, In k ks ->
         exists c1 c2, dict_find k (opponents_hands (self w')) = Some [c1; c2]
                       /\ c1 <> c2 /\ In c1 d /\ In c2 d) /\
      (forall k, ~ In k ks ->
         dict_find k (opponents_hands (self w'))
         = dict_find k (opponents_hands (self w))) /\
      players_hands (self w') = players_hands (self w) /\
      board (self w') = board (self w) /\
      burned_cards (self w') = burned_cards (self w) /\
      stdout w' = stdout w.
Proof.
  induction ks as [|k ks IH]; intros w d Hd Hnd Hks Hc Hl.
  - exists w, d. simpl. repeat split; auto using incl_refl; try tauto; lia.
  - simpl in Hl. inversion Hks as [|? ? Hk Hks']; subst.
    destruct (deal_opponent_hand_two k w d Hd) as
      (c1 & c2 & rest & w1 & E1 & P & Ho1 & Hs1); [lia|].
    destruct (two_off_the_deck d rest c1 c2 Hnd P)
      as (Hne & Hin1 & Hin2 & Hlen & _ & _).
    set (d1 := filter (fun c => negb (py_in c [c1; c2])) d) in *.
    destruct (IH w1 d1) as
      (w' & d' & E & Hd' & Hnd' & Hi & Hlen' & Hkeys & Hdealt & Hkept
          & Hp & Hb & Hbu & Ho); try assumption.
    { now rewrite Hs1. }
    { now apply NoDup_filter. }
    { intros k' Hk'. rewrite Hs1. fields.
      apply dict_contains_setitem, Hc. now right. }
    { lia. }
    exists w', d'. simpl. rewrite (bind_Ok _ _ _ _ _ E1).
    split; [assumption|]. split; [assumption|]. split; [assumption|].
    split; [intros x Hx; apply Hi in Hx; now apply filter_In in Hx|].
    split; [lia|].
    split.
    { rewrite Hkeys, Hs1. fields. apply dict_setitem_keys, Hc. now left. }
    split.
    { intros k' [<-|Hk'].
      - exists c1, c2. rewrite (Hkept k Hk), Hs1. fields.
        now rewrite dict_setitem_find.
      - destruct (Hdealt k' Hk') as (a & b & Ef & Hab & Ha & Hb').
        exists a, b. repeat split; try assumption.
        + now apply filter_In in Ha.
        + now apply filter_In in Hb'. }
    split.
    { intros k' Hk'. rewrite Hkept by tauto. rewrite Hs1. fields.
      apply dict_setitem_find_other. intros ->. apply Hk'. now left. }
    rewrite Hp, Hb, Hbu, Ho, Hs1. fields. auto.
Qed.

Lemma deal_rounds_short (ks : list pykey) :
  forall (w : World) (d : list card),
    deck (self w) = PyList d -> NoDup d ->
    (length d < 2 * length ks)%nat ->
    exists w', for_each ks deal_opponent_hand w = (Raise ValueError, w').
Proof.
  induction ks as [|k ks IH]; intros w d Hd Hnd Hl; simpl in Hl; [lia|].
  destruct (le_lt_dec 2 (length d)) as [H2|H2].
  - destruct (deal_opponent_hand_two k w d Hd H2) as
      (c1 & c2 & rest & w1 & E1 & P & Ho1 & Hs1).
    destruct (two_off_the_deck d rest c1 c2 Hnd P)
      as (_ & _ & _ & Hlen & _ & _).
    destruct (IH w1 (filter (fun c => negb (py_in c [c1; c2])) d))
      as (w' & E).
    + now rewrite Hs1.
    + now apply NoDup_filter.
    + lia.
    + exists w'. simpl. now rewrite (bind_Ok _ _ _ _ _ E1).
  - exists w. simpl. apply bind_Raise. now apply deal_opponent_hand_short with d.
Qed.

(* ================================================================= *)
(** ** update_board, the whole call *)

Lemma update_board_absent (args : list card) :
  forall (w : World) (d : list card),
    deck (self w) = PyList d -> (forall c, In c args -> ~ In c d) ->
    update_board args w =
      (Ok tt, {| self := self w; entropy := entropy w;
                 stdout := stdout w ++ map not_in_deck_message args |}).
Proof.
  induction args as [|c args IH]; intros w d Hd Hno.
  - unfold update_board. simpl. rewrite app_nil_r. now destruct w.
  - unfold update_board in *. simpl.
    rewrite (bind_Ok _ _ _ _ _
               (update_board_card_absent w d c Hd (Hno c (or_introl eq_refl)))).
    rewrite (IH _ d); simpl; try assumption.
    + now rewrite <- app_assoc.
    + intros x Hx. apply Hno. now right.
Qed.

Lemma update_board_takes (args : list card) :
  forall (w : World) (d : list card),
    deck (self w) = PyList d -> NoDup d ->
    exists w' d',
      update_board args w = (Ok tt, w') /\
      deck (self w') = PyList d' /\ NoDup d' /\ incl d' d /\
      forall c, In c args -> ~ In c d'.
Proof.
  induction args as [|c args IH]; intros w d Hd Hnd.
  - exists w, d. repeat split; auto using incl_refl.
  - assert (H1 : exists w1 d1,
               update_board_card c w = (Ok tt, w1) /\
               deck (self w1) = PyList d1 /\ NoDup d1 /\ incl d1 d /\
               ~ In c d1).
    { destruct (in_dec card_eq_dec c d) as [Hin|Hin].
      - destruct (update_board_card_present w d c Hd Hin)
          as (l1 & l2 & E & _ & Er).
        subst d. eexists _, (l1 ++ l2). split; [exact Er|]. simpl.
        split; [reflexivity|]. split; [now apply NoDup_remove_1 in Hnd|].
        split; [|now apply NoDup_remove_2 in Hnd].
        intros x Hx. apply in_app_or in Hx. apply in_or_app.
        destruct Hx; [now left | right; now right].
      - eexists _, d.
        split; [exact (update_board_card_absent w d c Hd Hin)|]. simpl.
        auto using incl_refl. }
    destruct H1 as (w1 & d1 & E1 & Hd1 & Hnd1 & Hi1 & Hc1).
    destruct (IH w1 d1 Hd1 Hnd1) as (w' & d' & E & Hd' & Hnd' & Hi & Hno).
    exists w', d'. unfold update_board in *. simpl.
    rewrite (bind_Ok _ _ _ _ _ E1).
    repeat split; try assumption.
    + intros x Hx. apply Hi1, Hi, Hx.
    + intros x [<-|Hx]; [|now apply Hno].
      intros Hx. apply Hc1, Hi, Hx.
Qed.

(* ================================================================= *)
(** ** When the community cards cannot be drawn *)

Lemma draw_community_fails (w : World) :
  0 < missing_cards (self w) ->
  (forall d, deck (self w) = PyList d ->
             Z.of_nat (length d) < missing_cards (self w) ->
             draw_community w = (Raise IndexError, w)) /\
  (forall cs, deck (self w) = DeckObj cs ->
              draw_community w = (Raise AttributeError, w)).
Proof.
  intros Hpos. split.
  - intros d Hd Hl. unfold draw_community, bind, get_self, for_range.
    rewrite Hd. apply draw_loop_short. unfold range_len. lia.
  - intros cs Hd. unfold draw_community, bind, get_self, for_range.
    rewrite Hd. unfold range_len.
    destruct (Z.to_nat (missing_cards (self w))) as [|n] eqn:E; [lia|].
    reflexivity.
Qed.

Lemma simulate_draw_fails lib (hands : list (list card)) (w : World)
      (e : exn) :
  draw_community w = (Raise e, w) ->
  simulate_remaining_game lib hands w = (Raise e, w).
Proof.
  intros H. rewrite simulate_by_verdict. unfold round_verdict, trial_locals.
  now rewrite (bind_Raise _ _ _ _ _ H).
Qed.

(* ================================================================= *)
(** ** A game whose deck is a Deck object *)

Section Frozen.

Variable lib : Deuces.
Variable g0 : PokerGame.
Variable cs : list card.
Hypothesis deck_g0 : deck g0 = DeckObj cs.

Let frozen (g : PokerGame) : Prop := g = g0.

Lemma frozen_update_board_card (c : card) :
  preserves frozen (update_board_card c).
Proof.
  intros w H. rewrite (update_board_card_DeckObj w cs c); [assumption|].
  now rewrite H.
Qed.

Lemma frozen_reveal_card (c : card) : preserves frozen (reveal_card c).
Proof.
  intros w H. rewrite (reveal_card_DeckObj w cs c); [assumption|].
  now rewrite H.
Qed.

Lemma frozen_add_to_opponent_hand (k : pykey) (c : card) :
  preserves frozen (add_to_opponent_hand k c).
Proof.
  intros w H.
  destruct (dict_find k (opponents_hands (self w))) as [hand|] eqn:Hk.
  - rewrite (add_to_opponent_hand_DeckObj w k c hand cs Hk); [assumption|].
    now rewrite H.
  - now rewrite (add_to_opponent_hand_unknown w k c Hk).
Qed.

Lemma frozen_deal_hole_cards : preserves frozen deal_hole_cards.
Proof.
  intros w H. rewrite (deal_hole_cards_DeckObj w cs); [assumption|].
  now rewrite H.
Qed.

Lemma frozen_deal_opponent_hand (k : pykey) :
  preserves frozen (deal_opponent_hand k).
Proof.
  intros w H. rewrite (deal_opponent_hand_DeckObj k w cs); [assumption|].
  now rewrite H.
Qed.

Ltac frozen_steps :=
  repeat first
    [ apply frozen_update_board_card
    | apply frozen_deal_opponent_hand
    | apply keeps_self_preserves; first
        [ apply pure_keeps_self, (pure_simulate_remaining_game lib)
        | apply pure_keeps_self, (pure_get_beating_hands lib)
        | apply keeps_self_print
        | apply pure_keeps_self; first
            [ apply pure_ret | apply pure_raise | apply pure_lift
            | apply pure_get_self | apply pure_draw_community ] ]
    | apply preserves_for_each; intros ?
    | apply preserves_repeat_loop; intros ?
    | apply preserves_bind; [ | intros ? ]
    | match goal with
      | |- preserves _ (match ?x with _ => _ end) => destruct x
      end ].

Lemma frozen_run (c : method_call) :
  (forall n hole_cards, c <> call_new_game n hole_cards) ->
  preserves frozen (run lib c).
Proof.
  intros Hc. destruct c; simpl.
  - apply frozen_deal_hole_cards.
  - unfold deal_opponent_hands. frozen_steps.
  - unfold update_board. frozen_steps.
  - exfalso. now apply (Hc n hole_cards).
  - frozen_steps.
  - unfold calculate_win_probabilities, deal_opponent_hands. frozen_steps.
  - unfold calculate_hand_probability, for_range, hand_trial,
      deal_opponent_hands.
    frozen_steps.
  - apply frozen_reveal_card.
  - apply frozen_add_to_opponent_hand.
  - frozen_steps.
Qed.

End Frozen.

(* ================================================================= *)
(** ** Further properties of the class *)

(** X1.  [reveal_card] in a reachable world whose deck is a list: it
    never raises; a card that is in the deck goes to the end of the burned
    cards and leaves the deck, and nothing is printed; a card that is not
    in the deck (any card already on the board, burned or held by an
    opponent is such a card) leaves the game object as it is and prints
    the error line. *)
Theorem reveal_card_moves_or_reports
        lib (w : World) (d : list card) (c : card) :
  reachable lib w ->
  deck (self w) = PyList d ->
  exists w1,
    reveal_card c w = (Ok tt, w1) /\
    (In c d ->
     exists l1 l2,
       d = l1 ++ c :: l2 /\ ~ In c (l1 ++ l2) /\
       deck (self w1) = PyList (l1 ++ l2) /\
       burned_cards (self w1) = burned_cards (self w) ++ [c] /\
       board (self w1) = board (self w) /\
       players_hands (self w1) = players_hands (self w) /\
       opponents_hands (self w1) = opponents_hands (self w) /\
       stdout w1 = stdout w) /\
    (~ In c d ->
     self w1 = self w /\
     stdout w1 = stdout w ++ [not_in_deck_message c]) /\
    (In c (dealt_out (self w)) -> ~ In c d).
Proof.
  intros Hr Hd.
  pose proof (reachable_tidy lib w Hr d Hd) as Ht.
  destruct (in_dec card_eq_dec c d) as [Hin|Hin].
  - destruct (reveal_card_present w d c Hd Hin) as (l1 & l2 & E & _ & Er).
    eexists. split; [exact Er|]. simpl. split; [|split].
    + intros _. exists l1, l2. repeat split; try assumption.
      subst d. apply NoDup_app_remove_r in Ht. now apply NoDup_remove_2 in Ht.
    + intros H. contradiction.
    + intros Hout Hc.
      apply (proj1 (NoDup_count_occ card_eq_dec _)) with (x := c) in Ht.
      rewrite count_occ_app in Ht.
      apply (count_occ_In card_eq_dec) in Hout, Hc. lia.
  - eexists. split; [exact (reveal_card_absent w d c Hd Hin)|]. simpl.
    split; [|split]; auto. intros H. contradiction.
Qed.

Lemma reveal_card_moves_or_reports_witness :
  burned_cards (self (Fixture.after (reveal_card (Tok "9h"))
                                    Fixture.after_flop))
  = [Tok "9h"]
  /\ stdout (Fixture.after (reveal_card (Tok "2h")) Fixture.after_flop)
     = ["Error: Card 2h is not in the deck."]%string.
Proof.
  destruct (reveal_card_moves_or_reports
              Fixture.deuces Fixture.after_flop
              (deck_zone (self Fixture.after_flop)) (Tok "9h"))
    as (w1 & E & _).
  - apply (reachable_call Fixture.deuces _
             (call_update_board [Tok "2h"; Tok "3h"; Tok "4h"])).
    apply reachable_start.
  - vm_compute. reflexivity.
  - split; vm_compute; reflexivity.
Defined.

(** X2.  In every reachable world the opponents are the players
    [player2] ... [player<num_players>], each once and in this order:
    there are [num_players - 1] of them (none when [num_players] is below
    two), and [player1] is not one of them. *)
Theorem opponents_are_named lib (w : World) :
  reachable lib w ->
  dict_keys (opponents_hands (self w))
  = map (fun i => KStr ("player" ++ string_of_Z i))
        (py_range 2 (num_players (self w) + 1)) /\
  NoDup (dict_keys (opponents_hands (self w))) /\
  length (opponents_hands (self w))
  = Z.to_nat (num_players (self w) - 1) /\
  dict_find (KStr "player1") (opponents_hands (self w)) = None.
Proof.
  intros Hr. pose proof (reachable_same_opponents lib w Hr) as Hk.
  unfold same_opponents in Hk.
  destruct (no_opponents_hands_keys (num_players (self w)))
    as (Hnd & Hp1 & Hlen).
  split; [|split; [|split]].
  - rewrite Hk. unfold no_opponents_hands, dict_keys. now rewrite map_map.
  - now rewrite Hk.
  - rewrite <- Hlen. unfold dict_keys in Hk.
    apply (f_equal (@length pykey)) in Hk. now rewrite !length_map in Hk.
  - apply dict_find_not_key. now rewrite Hk.
Qed.

Lemma opponents_are_named_witness :
  dict_keys (opponents_hands
               (self (Fixture.after
                        (new_game Fixture.deuces 4 [Tok "Kh"; Tok "Kd"])
                        Fixture.preflop)))
  = [KStr "player2"; KStr "player3"; KStr "player4"].
Proof.
  destruct (opponents_are_named Fixture.deuces
              (Fixture.after (new_game Fixture.deuces 4 [Tok "Kh"; Tok "Kd"])
                             Fixture.preflop)) as (E & _).
  - apply (reachable_call Fixture.deuces _
             (call_new_game 4 [Tok "Kh"; Tok "Kd"])).
    apply reachable_start.
  - rewrite E. vm_compute. reflexivity.
Defined.

(** X3.  [add_to_opponent_hand] with the name [player1], in any reachable
    world and for any card: the card is not even looked up; the call
    prints that the opponent does not exist and changes nothing else. *)
Theorem add_to_opponent_hand_refuses_player1 lib (w : World) (c : card) :
  reachable lib w ->
  add_to_opponent_hand (KStr "player1") c w =
    (Ok tt, {| self := self w; entropy := entropy w;
               stdout := stdout w
                         ++ ["Error: Opponent player1 does not exist."] |}).
Proof.
  intros Hr.
  pose proof (reachable_same_opponents lib w Hr) as Hk.
  destruct (no_opponents_hands_keys (num_players (self w))) as (_ & Hp1 & _).
  apply add_to_opponent_hand_unknown, dict_find_not_key.
  unfold same_opponents in Hk. now rewrite Hk.
Qed.

Lemma add_to_opponent_hand_refuses_player1_witness :
  stdout (Fixture.after (add_to_opponent_hand (KStr "player1") (Tok "9h"))
                        Samples.restarted)
  = ["Error: Opponent player1 does not exist."]%string.
Proof.
  unfold Fixture.after.
  rewrite (add_to_opponent_hand_refuses_player1 Fixture.deuces).
  - vm_compute. reflexivity.
  - apply (reachable_call Fixture.deuces _
             (call_new_game 2 [Tok "Kh"; Tok "Kd"])).
    apply reachable_start.
Defined.

(** X4.  [add_to_opponent_hand] for a name that is a key of
    [opponents_hands], in a reachable world whose deck is a list: a card
    that is in the deck is appended to that opponent's hand, however many
    cards the hand has already, and leaves the deck; the hands of the
    other opponents, the player's hand, board and burned cards stay, and
    nothing is printed.  A card that is not in the deck only prints the
    error line. *)
Theorem add_to_opponent_hand_known
        lib (w : World) (d hand : list card) (k : pykey) (c : card) :
  reachable lib w ->
  deck (self w) = PyList d ->
  dict_find k (opponents_hands (self w)) = Some hand ->
  exists w1,
    add_to_opponent_hand k c w = (Ok tt, w1) /\
    (In c d ->
     exists l1 l2,
       d = l1 ++ c :: l2 /\ ~ In c (l1 ++ l2) /\
       deck (self w1) = PyList (l1 ++ l2) /\
       dict_find k (opponents_hands (self w1)) = Some (hand ++ [c]) /\
       (forall k', k' <> k ->
          dict_find k' (opponents_hands (self w1))
          = dict_find k' (opponents_hands (self w))) /\
       players_hands (self w1) = players_hands (self w) /\
       board (self w1) = board (self w) /\
       burned_cards (self w1) = burned_cards (self w) /\
       stdout w1 = stdout w) /\
    (~ In c d ->
     self w1 = self w /\
     stdout w1 = stdout w ++ [not_in_deck_message c]).
Proof.
  intros Hr Hd Hk.
  pose proof (reachable_tidy lib w Hr d Hd) as Ht.
  destruct (in_dec card_eq_dec c d) as [Hin|Hin].
  - destruct (add_to_opponent_hand_present w k c hand d Hk Hd Hin)
      as (l1 & l2 & E & _ & Er).
    eexists. split; [exact Er|]. simpl. split.
    + intros _. exists l1, l2. repeat split; try assumption.
      * subst d. apply NoDup_app_remove_r in Ht.
        now apply NoDup_remove_2 in Ht.
      * apply dict_setitem_find.
      * intros k' Hne. now apply dict_setitem_find_other.
    + intros H. contradiction.
  - eexists.
    split; [exact (add_to_opponent_hand_absent w k c hand d Hk Hd Hin)|].
    simpl. split; auto. intros H. contradiction.
Qed.

Lemma add_to_opponent_hand_known_witness :
  opponents_hands
    (self (Fixture.after
             (add_to_opponent_hand (KStr "player2") (Tok "9h"))
             Fixture.after_flop))
  = [(KStr "player2", [Tok "9h"])].
Proof.
  destruct (add_to_opponent_hand_known
              Fixture.deuces Fixture.after_flop
              (deck_zone (self Fixture.after_flop)) [] (KStr "player2")
              (Tok "9h"))
    as (w1 & E & _).
  - apply (reachable_call Fixture.deuces _
             (call_update_board [Tok "2h"; Tok "3h"; Tok "4h"])).
    apply reachable_start.
  - vm_compute. reflexivity.
  - vm_compute. reflexivity.
  - vm_compute. reflexivity.
Defined.

(** X5.  [deal_hole_cards] in a reachable world whose deck is a list.
    With fewer than two cards in the deck it raises [ValueError] and
    changes nothing.  Otherwise it returns; the player's hand is replaced
    by two different cards of the deck, the deck loses exactly these two
    and gets no card back (the previous hole cards are dropped), and the
    opponents' hands, board and burned cards stay; nothing is printed. *)
Theorem deal_hole_cards_contract lib (w : World) (d : list card) :
  reachable lib w ->
  deck (self w) = PyList d ->
  ((length d < 2)%nat -> deal_hole_cards w = (Raise ValueError, w)) /\
  ((2 <= length d)%nat ->
   exists c1 c2 d' w',
     deal_hole_cards w = (Ok tt, w') /\
     c1 <> c2 /\ In c1 d /\ In c2 d /\
     players_hands (self w') = [(KStr "player1", [c1; c2])] /\
     deck (self w') = PyList d' /\
     (length d' + 2 = length d)%nat /\
     incl d' d /\ ~ In c1 d' /\ ~ In c2 d' /\
     opponents_hands (self w') = opponents_hands (self w) /\
     board (self w') = board (self w) /\
     burned_cards (self w') = burned_cards (self w) /\
     stdout w' = stdout w).
Proof.
  intros Hr Hd. split; [now apply deal_hole_cards_short|].
  intros Hl.
  pose proof (reachable_tidy lib w Hr d Hd) as Ht.
  apply NoDup_app_remove_r in Ht.
  destruct (reachable_one_player lib w Hr) as [hole Hp].
  destruct (deal_hole_cards_two w d Hd Hl)
    as (c1 & c2 & rest & w' & E & P & Ho & Hs).
  destruct (two_off_the_deck d rest c1 c2 Ht P)
    as (Hne & H1 & H2 & Hlen & Hn1 & Hn2).
  exists c1, c2, (filter (fun c => negb (py_in c [c1; c2])) d), w'.
  rewrite Hs. fields. rewrite Hp.
  repeat split; try assumption. apply incl_filter.
Qed.

Lemma deal_hole_cards_contract_witness :
  players_hands (self (Fixture.after deal_hole_cards Fixture.preflop))
  = [(KStr "player1", [Tok "2d"; Tok "2s"])]
  /\ deal_hole_cards Samples.last_card
     = (Raise ValueError, Samples.last_card).
Proof.
  destruct (deal_hole_cards_contract Fixture.deuces Fixture.preflop
              full_deck) as [_ H].
  - apply reachable_start.
  - reflexivity.
  - destruct H as (c1 & c2 & d' & w' & E & _); [vm_compute; lia|].
    split; vm_compute; reflexivity.
Defined.

(** X6.  [deal_opponent_hands] in a reachable world whose deck is a list,
    with [k] opponents.  With at least [2k] cards in the deck it returns
    the [k] hands it has stored, in the order of the opponents: each is
    two cards of the deck, no card is dealt twice, the deck loses exactly
    these [2k] cards and gets none back (cards the opponents held before
    are dropped).  With fewer cards it raises [ValueError]. *)
Theorem deal_opponent_hands_contract lib (w : World) (d : list card) :
  reachable lib w ->
  deck (self w) = PyList d ->
  ((2 * length (opponents_hands (self w)) <= length d)%nat ->
   exists hs d' w',
     deal_opponent_hands w = (Ok hs, w') /\
     hs = dict_values (opponents_hands (self w')) /\
     length hs = length (opponents_hands (self w)) /\
     Forall (fun hand => length hand = 2%nat) hs /\
     NoDup (concat hs) /\ incl (concat hs) d /\
     deck (self w') = PyList d' /\
     (length d' + 2 * length hs = length d)%nat /\
     incl d' d /\ (forall c, In c (concat hs) -> ~ In c d') /\
     players_hands (self w') = players_hands (self w) /\
     board (self w') = board (self w) /\
     burned_cards (self w') = burned_cards (self w) /\
     stdout w' = stdout w) /\
  ((length d < 2 * length (opponents_hands (self w)))%nat ->
   exists w', deal_opponent_hands w = (Raise ValueError, w')).
Proof.
  intros Hr Hd.
  pose proof (reachable_tidy lib w Hr d Hd) as Ht.
  apply NoDup_app_remove_r in Ht.
  pose proof (reachable_same_opponents lib w Hr) as Hsame.
  assert (Hks : NoDup (dict_keys (opponents_hands (self w)))).
  { unfold same_opponents in Hsame. rewrite Hsame.
    apply no_opponents_hands_keys. }
  assert (Hlen : length (dict_keys (opponents_hands (self w)))
                 = length (opponents_hands (self w)))
    by (unfold dict_keys; apply length_map).
  split.
  - intros Hl.
    destruct (deal_rounds_Ok (dict_keys (opponents_hands (self w))) w d)
      as (w' & d' & E & Hd' & Hnd' & Hi & Hl' & Hkeys & Hdealt & _
             & Hp & Hb & Hbu & Ho);
      try assumption.
    { intros k. apply dict_keys_contains. }
    { lia. }
    assert (Er : deal_opponent_hands w
                 = (Ok (dict_values (opponents_hands (self w'))), w')).
    { unfold deal_opponent_hands, bind at 1, get_self at 1.
      now rewrite (bind_Ok _ _ _ _ _ E). }
    assert (Hr' : reachable lib w').
    { pose proof (reachable_call lib w call_deal_opponent_hands Hr) as H.
      simpl in H. unfold bind in H. now rewrite Er in H. }
    pose proof (reachable_tidy lib w' Hr' d' Hd') as Ht'.
    assert (Hhands : forall h, In h (dict_values (opponents_hands (self w'))) ->
                     exists c1 c2, h = [c1; c2] /\ In c1 d /\ In c2 d).
    { intros h Hh. unfold dict_values in Hh.
      apply in_map_iff in Hh. destruct Hh as ([k h'] & <- & Hin).
      assert (Hk : In k (dict_keys (opponents_hands (self w)))).
      { rewrite <- Hkeys. unfold dict_keys.
        change k with (fst (k, h')). now apply in_map. }
      destruct (Hdealt k Hk) as (c1 & c2 & Ef & _ & H1 & H2).
      rewrite (dict_find_In k h') in Ef;
        [|now rewrite Hkeys | assumption].
      exists c1, c2. simpl. split; [congruence | auto]. }
    assert (Hn : length (dict_values (opponents_hands (self w')))
                 = length (opponents_hands (self w))).
    { rewrite <- Hlen, <- Hkeys. unfold dict_values, dict_keys.
      now rewrite !length_map. }
    exists (dict_values (opponents_hands (self w'))), d', w'.
    split; [assumption|]. split; [reflexivity|]. split; [assumption|].
    split.
    { apply Forall_forall. intros h Hh.
      destruct (Hhands h Hh) as (c1 & c2 & -> & _). reflexivity. }
    unfold dealt_out in Ht'.
    split.
    { apply NoDup_app_remove_l in Ht'. apply NoDup_app_remove_l in Ht'.
      now apply NoDup_app_remove_l in Ht'. }
    split.
    { intros x Hx. apply in_concat in Hx. destruct Hx as (h & Hh & Hx).
      destruct (Hhands h Hh) as (c1 & c2 & -> & H1 & H2).
      destruct Hx as [<-|[<-|[]]]; assumption. }
    split; [assumption|]. split; [rewrite Hn; lia|].
    split; [assumption|]. split; [|auto].
    intros x Hx Hxd.
    apply (proj1 (NoDup_count_occ card_eq_dec _)) with (x := x) in Ht'.
    rewrite !count_occ_app in Ht'.
    apply (count_occ_In card_eq_dec) in Hx, Hxd. lia.
  - intros Hl.
    destruct (deal_rounds_short (dict_keys (opponents_hands (self w))) w d)
      as (w' & E); try assumption; [lia|].
    exists w'. unfold deal_opponent_hands, bind at 1, get_self at 1.
    now rewrite (bind_Raise _ _ _ _ _ E).
Qed.

Lemma deal_opponent_hands_contract_witness :
  fst (deal_opponent_hands Fixture.preflop) = Ok [[Tok "2d"; Tok "2s"]]
  /\ fst (deal_opponent_hands Samples.last_card) = Raise ValueError.
Proof.
  destruct (deal_opponent_hands_contract Fixture.deuces Fixture.preflop
              full_deck) as [H _].
  - apply reachable_start.
  - reflexivity.
  - destruct H as (hs & d' & w' & E & _); [vm_compute; lia|].
    split; vm_compute; reflexivity.
Defined.

(** X7.  In every reachable world whose deck is a list, no card occurs
    twice among the deck, the board, the burned cards and the opponents'
    hands taken together: these zones have no repeated card and are
    pairwise disjoint.  (The player's hand is not part of this: see
    C2.) *)
Theorem dealt_zones_disjoint lib (w : World) (d : list card) :
  reachable lib w ->
  deck (self w) = PyList d ->
  NoDup (d ++ board (self w) ++ burned_cards (self w)
           ++ concat (dict_values (opponents_hands (self w)))).
Proof. intros Hr Hd. exact (reachable_tidy lib w Hr d Hd). Qed.

Lemma dealt_zones_disjoint_witness :
  NoDup (deck_zone (self Fixture.after_flop)
           ++ board (self Fixture.after_flop)
           ++ burned_cards (self Fixture.after_flop)
           ++ concat (dict_values (opponents_hands
                                     (self Fixture.after_flop)))).
Proof.
  apply (dealt_zones_disjoint Fixture.deuces Fixture.after_flop).
  - apply (reachable_call Fixture.deuces _
             (call_update_board [Tok "2h"; Tok "3h"; Tok "4h"])).
    apply reachable_start.
  - reflexivity.
Defined.

(** X8.  Every method call, whether it returns or raises, leaves a game
    object that is reached from the one it started with by finitely many
    atomic moves: a card of a list deck goes to the board, to the burned
    cards or to an opponent's hand; two cards of a list deck become an
    opponent's or the player's hand; a new game is set up.  No call
    changes the game object in any other way, so a property that holds
    after construction and is kept by every move holds in every reachable
    world. *)
Theorem method_calls_are_moves lib :
  (forall (c : method_call) (w : World),
     moves lib (self w) (self (snd (run lib c w)))) /\
  (forall P : PokerGame -> Prop,
     (forall n hole_cards, P (__init__ n hole_cards)) ->
     (forall g g', move lib g g' -> P g -> P g') ->
     forall w, reachable lib w -> P (self w)).
Proof.
  split.
  - intros c w. apply by_moves_run.
  - intros P Hinit Hmove w Hr.
    now apply (reachable_invariant lib P Hinit Hmove).
Qed.

(** X9.  Calling [update_board] a second time with the same cards, in a
    reachable world whose deck is a list: the first call returns, and the
    second changes nothing in the game object and prints the error line
    for each of the cards. *)
Theorem update_board_twice lib (w : World) (d args : list card) :
  reachable lib w ->
  deck (self w) = PyList d ->
  exists w1,
    update_board args w = (Ok tt, w1) /\
    update_board args w1 =
      (Ok tt, {| self := self w1; entropy := entropy w1;
                 stdout := stdout w1 ++ map not_in_deck_message args |}).
Proof.
  intros Hr Hd.
  pose proof (reachable_tidy lib w Hr d Hd) as Ht.
  apply NoDup_app_remove_r in Ht.
  destruct (update_board_takes args w d Hd Ht)
    as (w1 & d1 & E & Hd1 & _ & _ & Hno).
  exists w1. split; [assumption|].
  now apply update_board_absent with d1.
Qed.

Lemma update_board_twice_witness :
  stdout (Fixture.after (update_board [Tok "2h"; Tok "3h"; Tok "4h"])
                        Fixture.after_flop)
  = ["Error: Card 2h is not in the deck.";
     "Error: Card 3h is not in the deck.";
     "Error: Card 4h is not in the deck."]%string
  /\ self (Fixture.after (update_board [Tok "2h"; Tok "3h"; Tok "4h"])
                         Fixture.after_flop)
     = self Fixture.after_flop.
Proof.
  destruct (update_board_twice Fixture.deuces
              (Fixture.start 2 [Tok "As"; Tok "7d"] [1; 2]%nat)
              full_deck [Tok "2h"; Tok "3h"; Tok "4h"])
    as (w1 & E1 & E2).
  - apply reachable_start.
  - reflexivity.
  - assert (Hw : Fixture.after_flop = w1)
      by (unfold Fixture.after_flop, Fixture.after; now rewrite E1).
    unfold Fixture.after. rewrite Hw, E2. simpl. split; [|reflexivity].
    rewrite <- Hw. vm_compute. reflexivity.
Defined.

(** X10.  With no opponent hands every round of
    [simulate_remaining_game] that gets through the player's own
    evaluation is counted ([all] of nothing is true): the call returns
    exactly 1, or ends with the exception of its first round.  This is
    what [calculate_win_probabilities] does before the flop in a game
    without opponents. *)
Theorem simulate_without_opponents lib (w : World) :
  simulate_remaining_game lib [] w =
    (obind (fst (trial_locals lib [] w)) (fun _ => Ok 1%Q), w)
  /\ (opponents_hands (self w) = [] ->
      board (self w) = [] -> burned_cards (self w) = [] ->
      calculate_win_probabilities lib w = simulate_remaining_game lib [] w).
Proof.
  split.
  - rewrite simulate_by_verdict. unfold round_verdict.
    destruct (trial_locals lib [] w) as [[[[p oh] ss]|e] w'] eqn:E;
      [|reflexivity].
    assert (Hss : ss = []).
    { revert E. unfold trial_locals, bind, get_self, lift, ret.
      cbn [map mapM].
      repeat match goal with
             | |- context [match ?o with _ => _ end] => destruct o
             end; intros H; inversion H; reflexivity. }
    subst ss. reflexivity.
  - intros Hno Hb Hbu.
    rewrite calculate_win_first_branch by assumption.
    unfold bind. now rewrite (deal_opponent_hands_nobody w Hno).
Qed.

Lemma simulate_without_opponents_witness :
  calculate_win_probabilities Fixture.deuces Samples.alone
  = (Ok 1%Q, Samples.alone).
Proof.
  destruct (simulate_without_opponents Fixture.deuces Samples.alone)
    as [E H].
  rewrite H by reflexivity. rewrite E. vm_compute. reflexivity.
Defined.

(** X11.  When community cards are still to be drawn,
    [simulate_remaining_game] raises [IndexError] if the list deck holds
    fewer cards than are missing, and [AttributeError] if the deck is a
    [Deck] object; in both cases nothing is changed. *)
Theorem simulate_cannot_draw lib (hands : list (list card)) (w : World) :
  0 < missing_cards (self w) ->
  (forall d, deck (self w) = PyList d ->
             Z.of_nat (length d) < missing_cards (self w) ->
             simulate_remaining_game lib hands w = (Raise IndexError, w)) /\
  (forall cs, deck (self w) = DeckObj cs ->
              simulate_remaining_game lib hands w
              = (Raise AttributeError, w)).
Proof.
  intros Hpos. destruct (draw_community_fails w Hpos) as [H1 H2].
  split.
  - intros d Hd Hl. apply simulate_draw_fails. now apply H1 with d.
  - intros cs Hd. apply simulate_draw_fails. now apply H2 with cs.
Qed.

Lemma simulate_cannot_draw_witness :
  simulate_remaining_game Fixture.deuces [[Tok "Qh"; Tok "Qd"]]
                          Samples.last_card
  = (Raise IndexError, Samples.last_card)
  /\ simulate_remaining_game Fixture.deuces [[Tok "Qh"; Tok "Qd"]]
                             Samples.restarted
     = (Raise AttributeError, Samples.restarted).
Proof.
  split.
  - apply (simulate_cannot_draw Fixture.deuces _ Samples.last_card)
      with (d := [Tok "As"]).
    + reflexivity.
    + reflexivity.
    + reflexivity.
  - destruct (simulate_cannot_draw Fixture.deuces [[Tok "Qh"; Tok "Qd"]]
                Samples.restarted) as [_ H].
    + reflexivity.
    + eapply H. vm_compute. reflexivity.
Defined.

(** X12.  Whenever [calculate_win_probabilities] returns, the board was
    empty and no card was burned, the value is exactly 0 or exactly 1,
    and the world it leaves is the one its call of [deal_opponent_hands]
    left. *)
Theorem calculate_win_values lib (w w' : World) (v : Q) :
  calculate_win_probabilities lib w = (Ok v, w') ->
  board (self w) = [] /\ burned_cards (self w) = [] /\
  (v = 0%Q \/ v = 1%Q) /\
  w' = snd (deal_opponent_hands w).
Proof.
  intros E.
  assert (Hw : w' = snd (deal_opponent_hands w)).
  { rewrite <- calculate_win_world with (lib := lib). now rewrite E. }
  destruct (board (self w)) as [|c b] eqn:Hb;
    [destruct (burned_cards (self w)) as [|c b] eqn:Hbu|].
  - repeat split; try assumption.
    rewrite calculate_win_first_branch in E by assumption.
    unfold bind in E.
    destruct (deal_opponent_hands w) as [[hs|e] w1]; [|discriminate].
    rewrite simulate_by_verdict in E.
    destruct (round_verdict lib hs w1) as [[|]|e]; simpl in E;
      inversion E; auto.
  - rewrite calculate_win_other_branches in E
      by (right; rewrite Hbu; discriminate).
    destruct (fst (deal_opponent_hands w)); discriminate.
  - rewrite calculate_win_other_branches in E
      by (left; rewrite Hb; discriminate).
    destruct (fst (deal_opponent_hands w)); discriminate.
Qed.

Lemma calculate_win_values_witness :
  board (self Fixture.preflop) = [] /\
  burned_cards (self Fixture.preflop) = [] /\
  (0%Q = 0%Q \/ 0%Q = 1%Q) /\
  Fixture.after (calculate_win_probabilities Fixture.deuces) Fixture.preflop
  = snd (deal_opponent_hands Fixture.preflop).
Proof.
  apply (calculate_win_values Fixture.deuces Fixture.preflop).
  vm_compute. reflexivity.
Defined.

(** X13.  In a reachable world of a game with two players or more,
    [calculate_hand_probability] never returns a probability, whatever
    the hand type.  When the evaluator has no attribute [HAND_EVAL] (the
    deuces package) the call raises [AttributeError] at once and changes
    nothing.  When there is a table that lacks the hand type, the error
    line is printed and [None] returned.  When the table has the hand
    type, each round deals to the opponents from the persistent deck,
    which runs out long before 10000 rounds, and the call ends with an
    exception. *)
Theorem calculate_hand_probability_never_returns
        lib (w : World) (hand_type : string) :
  reachable lib w ->
  2 <= num_players (self w) ->
  (HAND_EVAL lib = None ->
   calculate_hand_probability lib hand_type w = (Raise AttributeError, w)) /\
  (forall table,
     HAND_EVAL lib = Some table -> table_find hand_type table = None ->
     calculate_hand_probability lib hand_type w =
       (Ok None,
        {| self := self w; entropy := entropy w;
           stdout := stdout w ++ [invalid_hand_type_message hand_type] |})) /\
  (forall table t,
     HAND_EVAL lib = Some table -> table_find hand_type table = Some t ->
     exists e w', calculate_hand_probability lib hand_type w = (Raise e, w')) /\
  (forall p w',
     calculate_hand_probability lib hand_type w <> (Ok (Some p), w')).
Proof.
  intros Hr Hn.
  assert (Hne : opponents_hands (self w) <> []).
  { pose proof (reachable_same_opponents lib w Hr) as Hk.
    destruct (no_opponents_hands_keys (num_players (self w)))
      as (_ & _ & Hlen).
    unfold same_opponents, dict_keys in Hk.
    apply (f_equal (@length pykey)) in Hk. rewrite !length_map in Hk.
    intros E. rewrite E in Hk. simpl in Hk. lia. }
  assert (Hfound : forall table t,
             HAND_EVAL lib = Some table ->
             table_find hand_type table = Some t ->
             exists e w',
               calculate_hand_probability lib hand_type w = (Raise e, w')).
  { intros table t Htab Ht.
    unfold calculate_hand_probability, bind at 1, lift, getattr_HAND_EVAL.
    rewrite Htab, Ht. unfold for_range.
    destruct (hand_loop_raises lib t (range_len 10000) 0 w Hne)
      as (e & w' & E).
    - pose proof (reachable_deck_size lib w Hr). unfold range_len. lia.
    - exists e, w'. now apply bind_Raise. }
  assert (Hnone : HAND_EVAL lib = None ->
                  calculate_hand_probability lib hand_type w
                  = (Raise AttributeError, w)).
  { intros Htab.
    unfold calculate_hand_probability, bind, lift, getattr_HAND_EVAL.
    now rewrite Htab. }
  assert (Hunknown : forall table,
             HAND_EVAL lib = Some table ->
             table_find hand_type table = None ->
             calculate_hand_probability lib hand_type w =
               (Ok None,
                {| self := self w; entropy := entropy w;
                   stdout := stdout w
                             ++ [invalid_hand_type_message hand_type] |})).
  { intros table Htab Ht.
    unfold calculate_hand_probability, bind, lift, getattr_HAND_EVAL.
    now rewrite Htab, Ht. }
  repeat split; try assumption.
  intros p w' E.
  destruct (HAND_EVAL lib) as [table|] eqn:Htab.
  - destruct (table_find hand_type table) as [t|] eqn:Ht.
    + destruct (Hfound table t eq_refl Ht) as (e & w1 & E1).
      rewrite E1 in E. discriminate.
    + rewrite (Hunknown table eq_refl Ht) in E. discriminate.
  - rewrite (Hnone eq_refl) in E. discriminate.
Qed.

Lemma calculate_hand_probability_never_returns_witness :
  calculate_hand_probability Samples.as_shipped "pair" Fixture.preflop
  = (Raise AttributeError, Fixture.preflop)
  /\ exists e w',
       calculate_hand_probability Fixture.deuces "pair" Fixture.preflop
       = (Raise e, w').
Proof.
  split.
  - apply (calculate_hand_probability_never_returns
             Samples.as_shipped Fixture.preflop "pair").
    + apply reachable_start.
    + vm_compute. discriminate.
    + reflexivity.
  - destruct (calculate_hand_probability_never_returns
                Fixture.deuces Fixture.preflop "pair") as (_ & _ & H & _).
    + apply reachable_start.
    + vm_compute. discriminate.
    + apply (H [("pair", 6185); ("flush", 1599)] 6185); reflexivity.
Defined.

(** X15.  Once the deck is a [Deck] object, which is what [new_game]
    leaves, no method call other than another [new_game] changes the game
    object, whether it returns or raises. *)
Theorem Deck_object_freezes_game
        lib (w : World) (cs : list card) (c : method_call) :
  deck (self w) = DeckObj cs ->
  (forall n hole_cards, c <> call_new_game n hole_cards) ->
  self (snd (run lib c w)) = self w.
Proof.
  intros Hd Hc. now apply (frozen_run lib (self w) cs Hd c Hc w).
Qed.

Lemma Deck_object_freezes_game_witness :
  self (Fixture.after (run Fixture.deuces call_deal_opponent_hands)
                      Samples.restarted)
  = self Samples.restarted.
Proof.
  eapply (Deck_object_freezes_game Fixture.deuces Samples.restarted).
  - vm_compute. reflexivity.
  - discriminate.
Defined.

(** X16.  In every reachable world [get_beating_hands] ends with an
    exception, given only that the full deuces deck has two cards or more;
    so [print_beating_hands] prints nothing and ends with the same
    exception, and neither changes anything. *)
Theorem beating_hands_always_raise lib printing (w : World) :
  reachable lib w ->
  (2 <= length (GetFullDeck lib))%nat ->
  exists e,
    get_beating_hands lib w = (Raise e, w) /\
    print_beating_hands lib printing w = (Raise e, w).
Proof.
  intros Hr Hfull.
  assert (H : exists e, get_beating_hands lib w = (Raise e, w)).
  { destruct (deck (self w)) as [d|cs] eqn:Hd.
    - exists AttributeError.
      unfold get_beating_hands, bind, get_self, lift. now rewrite Hd.
    - destruct (reachable_untouched_Deck lib w Hr cs Hd) as [P _].
      destruct (reachable_one_player lib w Hr) as [hole Hp].
      apply Permutation_length in P.
      destruct cs as [|c1 [|c2 cs]]; simpl in P; try lia.
      apply (get_beating_hands_Deck_raises lib w c1 c2 cs Hd).
      now rewrite Hp. }
  destruct H as [e E]. exists e. split; [assumption|].
  unfold print_beating_hands. now apply bind_Raise.
Qed.

Lemma beating_hands_always_raise_witness :
  print_beating_hands Fixture.deuces Samples.printing Samples.restarted
  = (Raise KeyError, Samples.restarted).
Proof.
  destruct (beating_hands_always_raise
              Fixture.deuces Samples.printing Samples.restarted)
    as (e & E1 & E2).
  - apply (reachable_call Fixture.deuces _
             (call_new_game 2 [Tok "Kh"; Tok "Kd"])).
    apply reachable_start.
  - vm_compute. lia.
  - assert (H : fst (get_beating_hands Fixture.deuces Samples.restarted)
                = Raise KeyError) by (vm_compute; reflexivity).
    rewrite E1 in H. cbn [fst] in H. injection H as ->. exact E2.
Defined.

(** X17.  [show_hands] in a reachable world: the lookup of [player1]
    never fails; the player's hole cards followed by the board are
    scored against the board (so the board is handed to the evaluator
    twice), the score is classified, and one line is printed.  An
    exception of the evaluator or of the classification ends the call
    with nothing printed.  The game object is never changed. *)
Theorem show_hands_prints_one_line lib printing (w : World) :
  reachable lib w ->
  exists hole,
    players_hands (self w) = [(KStr "player1", hole)] /\
    show_hands lib printing w =
      match
        obind (evaluate lib (hole ++ board (self w)) (board (self w)))
          (fun score =>
             obind (get_rank_class printing score) (fun class =>
               obind (class_to_string printing class) (fun name =>
                 Ok ("Player hand rank = " ++ string_of_Z score
                       ++ " (" ++ name ++ ")")%string)))
      with
      | Ok line => (Ok tt, {| self := self w; entropy := entropy w;
                              stdout := stdout w ++ [line] |})
      | Raise e => (Raise e, w)
      end.
Proof.
  intros Hr. destruct (reachable_one_player lib w Hr) as [hole Hp].
  exists hole. split; [assumption|].
  unfold show_hands, bind, get_self, lift, print. rewrite Hp. simpl.
  destruct (evaluate lib (hole ++ board (self w)) (board (self w)))
    as [score|e]; simpl; [|reflexivity].
  destruct (get_rank_class printing score) as [class|e]; simpl;
    [|reflexivity].
  destruct (class_to_string printing class) as [name|e]; reflexivity.
Qed.

Lemma show_hands_prints_one_line_witness :
  show_hands Fixture.deuces Samples.printing Fixture.after_flop
  = (Raise KeyError, Fixture.after_flop).
Proof.
  destruct (show_hands_prints_one_line
              Fixture.deuces Samples.printing Fixture.after_flop)
    as (hole & Hp & E).
  - apply (reachable_call Fixture.deuces _
             (call_update_board [Tok "2h"; Tok "3h"; Tok "4h"])).
    apply reachable_start.
  - rewrite E. vm_compute in Hp. injection Hp as <-.
    vm_compute. reflexivity.
Defined.

(** X18.  No method call puts a card into a list deck: when the deck is
    a list before and after a call, every card of the deck after the call
    was in the deck before, and the deck has not become longer.  Cards
    that leave a hand (hole cards replaced by [deal_hole_cards],
    opponents' cards replaced by [deal_opponent_hands]) are not
    returned. *)
Theorem deck_never_grows lib (c : method_call) (w : World)
        (d d' : list card) :
  deck (self w) = PyList d ->
  deck (self (snd (run lib c w))) = PyList d' ->
  incl d' d /\ (length d' <= length d)%nat.
Proof.
  intros Hd Hd'.
  apply (moves_invariant lib
           (fun g => forall l, deck g = PyList l ->
                               incl l d /\ (length l <= length d)%nat))
    with (g := self w) (g' := self (snd (run lib c w)));
    try assumption.
  - clear. intros g g' Hm Hg.
    destruct Hm as [g l1 l2 c Hd Hn | g l1 l2 c Hd Hn
                   | g l1 l2 c k hand Hd Hn Hk
                   | g d0 rest c1 c2 k Hd P Hk | g d0 rest c1 c2 Hd P
                   | g n hc cs P];
      intros l Hl; fields in Hl; try discriminate;
      apply PyList_inj in Hl; subst l;
      destruct (Hg _ Hd) as [Hi Hlen].
    1-3: split;
      [ intros x Hx; apply Hi; apply in_app_or in Hx; apply in_or_app;
        destruct Hx; [now left | right; now right]
      | rewrite length_app in *; simpl in Hlen; lia ].
    1-2: split;
      [ intros x Hx; apply Hi; now apply filter_In in Hx
      | pose proof (filter_length_le
                      (fun c => negb (py_in c [c1; c2])) d0); lia ].
  - apply by_moves_run.
  - intros l Hl. rewrite Hd in Hl. apply PyList_inj in Hl. subst l.
    split; [apply incl_refl | lia].
Qed.

Lemma deck_never_grows_witness :
  (length (deck_zone (self (Fixture.after
                              (run Fixture.deuces call_deal_hole_cards)
                              Fixture.after_flop)))
   <= 49)%nat.
Proof.
  destruct (deck_never_grows Fixture.deuces call_deal_hole_cards
              Fixture.after_flop
              (deck_zone (self Fixture.after_flop))
              (deck_zone (self (Fixture.after
                                  (run Fixture.deuces call_deal_hole_cards)
                                  Fixture.after_flop))))
    as [_ H].
  - vm_compute. reflexivity.
  - vm_compute. reflexivity.
  - exact H.
Defined.
